(** * time-sync: restart of the Windows Time service and forced resync

    A shallow embedding of [time-sync.cpp].  The program talks to the
    operating system only: the service control manager, the steady clock,
    [sleep_for] and [system].  The operating system is an oracle that
    answers the n-th call the program makes; the program is written in a
    state monad over a [World] that holds the oracle, the clock, the last
    error code, the open service handles and the chronological trace of
    everything the program did. *)

From Stdlib Require Import ZArith Lia.
From stdpp Require Import gmap strings list.

Local Open Scope Z_scope.

(** ** Win32 vocabulary *)

Module Win32.

(** [DWORD] is an unsigned 32-bit integer; [SC_HANDLE] is an opaque
    pointer whose null value is [0]. *)
Definition DWORD := Z.
Definition SC_HANDLE := N.

Definition SC_MANAGER_CONNECT : DWORD := 0x0001.
Definition SERVICE_QUERY_STATUS : DWORD := 0x0004.
Definition SERVICE_START : DWORD := 0x0010.
Definition SERVICE_STOP : DWORD := 0x0020.

Definition SERVICE_CONTROL_STOP : DWORD := 1.

Definition SERVICE_STOPPED : DWORD := 1.
Definition SERVICE_START_PENDING : DWORD := 2.
Definition SERVICE_STOP_PENDING : DWORD := 3.
Definition SERVICE_RUNNING : DWORD := 4.

Definition ERROR_ACCESS_DENIED : DWORD := 5.
Definition ERROR_SERVICE_ALREADY_RUNNING : DWORD := 1056.
Definition ERROR_SERVICE_NOT_ACTIVE : DWORD := 1062.

End Win32.
Export Win32.

(** ** The operating system as seen by the program *)

(** What the operating system answers to one call.  Every call reads the
    fields it needs: [r_ok] is the BOOL result (for the two open calls:
    whether a handle is returned), [r_err] the code [GetLastError] gives
    after a failure, [r_state] the [dwCurrentState] a successful status
    query writes, [r_rc] the value [system] returns, and [r_delay] the
    time in nanoseconds the call takes (for [sleep_for]: the time slept
    beyond the requested duration). *)
Record Reply := mkReply {
  r_ok : bool;
  r_err : DWORD;
  r_state : DWORD;
  r_rc : Z;
  r_delay : N
}.

(** Everything the program does that is visible outside it, in the order
    it happens.  [EvQuery] records the steady-clock time at which the
    status query was issued.  [EvPrintError] stands for the lines
    [PrintErrorMessage] writes to [wcerr]; [EvTimeout] for the line
    "Error: Timeout waiting for service to reach state <target>". *)
Inductive Event :=
| EvOpenSCManager (access : DWORD) (result : SC_HANDLE)
| EvOpenService (scm : SC_HANDLE) (name : string) (access : DWORD) (result : SC_HANDLE)
| EvControlService (h : SC_HANDLE) (control : DWORD) (ok : bool)
| EvStartService (h : SC_HANDLE) (ok : bool)
| EvQuery (h : SC_HANDLE) (issued_at : Z) (ok : bool) (state : DWORD)
| EvSleep (millis : Z)
| EvClose (h : SC_HANDLE)
| EvSystem (command : string) (rc : Z)
| EvPrintError (failedFunction : string) (errorCode : DWORD)
| EvTimeout (targetStatus : DWORD)
| EvCout (line : string)
| EvCerr (line : string).

Record World := mkWorld {
  os : nat -> Reply;            (* the answer to the n-th call *)
  calls : nat;                  (* calls made so far *)
  clock : Z;                    (* steady clock, nanoseconds *)
  last_error : DWORD;           (* thread's last-error code *)
  issued : N;                   (* handles handed out so far *)
  open_handles : gset SC_HANDLE;(* handles opened and not yet closed *)
  trace : list Event            (* oldest event first *)
}.

Definition ns_per_ms : Z := 1000000.

(** The program's monad: state passing over [World]; [None] only when the
    polling loop below is run with too little fuel. *)
Definition M (A : Type) : Type := World -> option (A * World).

#[global] Instance M_ret : MRet M := fun A a w => Some (a, w).
#[global] Instance M_bind : MBind M := fun A B k m w =>
  match m w with
  | Some (a, w') => k a w'
  | None => None
  end.

Definition tick (extra : Z) (w : World) : World :=
  let r := os w (calls w) in
  {| os := os w; calls := S (calls w);
     clock := clock w + extra + Z.of_N (r_delay r);
     last_error := last_error w; issued := issued w;
     open_handles := open_handles w; trace := trace w |}.

Definition log (e : Event) (w : World) : World :=
  {| os := os w; calls := calls w; clock := clock w;
     last_error := last_error w; issued := issued w;
     open_handles := open_handles w; trace := trace w ++ [e] |}.

Definition set_last_error (e : DWORD) (w : World) : World :=
  {| os := os w; calls := calls w; clock := clock w;
     last_error := e; issued := issued w;
     open_handles := open_handles w; trace := trace w |}.

Definition alloc (w : World) : World :=
  {| os := os w; calls := calls w; clock := clock w;
     last_error := last_error w; issued := N.succ (issued w);
     open_handles := {[ N.succ (issued w) ]} ∪ open_handles w; trace := trace w |}.

Definition release (h : SC_HANDLE) (w : World) : World :=
  {| os := os w; calls := calls w; clock := clock w;
     last_error := last_error w; issued := issued w;
     open_handles := open_handles w ∖ {[ h ]}; trace := trace w |}.

(** One call into the operating system: its answer is the oracle's next
    one, and the clock advances by the time the call takes. *)
Definition os_call (extra : Z) : M Reply := fun w =>
  Some (os w (calls w), tick extra w).

Definition emit (e : Event) : M unit := fun w => Some (tt, log e w).

(** A successful open call hands out a handle that was never handed out
    before; a failed one returns the null handle and sets the last error. *)
Definition open_result (r : Reply) : M SC_HANDLE := fun w =>
  if r_ok r then Some (N.succ (issued w), alloc w)
  else Some (0%N, set_last_error (r_err r) w).

Definition bool_result (r : Reply) : M bool := fun w =>
  if r_ok r then Some (true, w) else Some (false, set_last_error (r_err r) w).

Definition OpenSCManager (access : DWORD) : M SC_HANDLE :=
  r ← os_call 0;
  h ← open_result r;
  emit (EvOpenSCManager access h);;
  mret h.

Definition OpenService (scm : SC_HANDLE) (name : string) (access : DWORD) : M SC_HANDLE :=
  r ← os_call 0;
  h ← open_result r;
  emit (EvOpenService scm name access h);;
  mret h.

Definition ControlService (h : SC_HANDLE) (control : DWORD) : M bool :=
  r ← os_call 0;
  ok ← bool_result r;
  emit (EvControlService h control ok);;
  mret ok.

Definition StartService (h : SC_HANDLE) : M bool :=
  r ← os_call 0;
  ok ← bool_result r;
  emit (EvStartService h ok);;
  mret ok.

Definition steady_clock_now : M Z := fun w => Some (clock w, w).

(** [QueryServiceStatusEx]: [Some dwCurrentState] when the call succeeds,
    [None] when it fails (the status buffer is then not written). *)
Definition QueryServiceStatusEx (h : SC_HANDLE) : M (option DWORD) :=
  t ← steady_clock_now;
  r ← os_call 0;
  ok ← bool_result r;
  emit (EvQuery h t ok (r_state r));;
  mret (if ok : bool then Some (r_state r) else None).

Definition give_back (h : SC_HANDLE) : M unit := fun w => Some (tt, release h w).

(** Closing an open handle gives it back to the operating system. *)
Definition CloseServiceHandle (h : SC_HANDLE) : M unit :=
  os_call 0;;
  give_back h;;
  emit (EvClose h).

Definition GetLastError : M DWORD := fun w => Some (last_error w, w).

(** [std::this_thread::sleep_for]: blocks for at least [millis]. *)
Definition sleep_for (millis : Z) : M unit :=
  os_call (millis * ns_per_ms);;
  emit (EvSleep millis).

Definition system (command : string) : M Z :=
  r ← os_call 0;
  emit (EvSystem command (r_rc r));;
  mret (r_rc r).

Definition wcout (line : string) : M unit := emit (EvCout line).
Definition wcerr (line : string) : M unit := emit (EvCerr line).

(** [std::chrono::duration_cast<milliseconds>] of a nanosecond count:
    integer division that truncates toward zero. *)
Definition duration_cast_ms (ns : Z) : Z := ns ÷ ns_per_ms.

(** ** The program *)

Definition PrintErrorMessage (failedFunction : string) (errorCode : DWORD) : M unit :=
  emit (EvPrintError failedFunction errorCode).

Definition is_null (h : SC_HANDLE) : bool := (h =? 0)%N.

(** [ServiceHandleDeleter::operator()]. *)
Definition ServiceHandleDeleter (handle : SC_HANDLE) : M unit :=
  if is_null handle then mret tt else CloseServiceHandle handle.

(** The lifetime of one [ScHandlePtr]: the body runs, and on every way out
    of it the destructor of [std::unique_ptr] calls the deleter when the
    pointer it holds is not null. *)
Definition ScHandlePtr_scope {A} (handle : SC_HANDLE) (body : M A) : M A :=
  result ← body;
  (if is_null handle then mret tt else ServiceHandleDeleter handle);;
  mret result.

(** The body of [while (true)] in [WaitForServiceStatus]; [fuel] bounds
    the number of iterations. *)
Fixpoint wait_loop (fuel : nat) (serviceHandle : SC_HANDLE)
    (targetStatus timeoutMillis : DWORD) (startTime : Z) : M bool :=
  match fuel with
  | O => fun _ => None
  | S fuel' =>
      q ← QueryServiceStatusEx serviceHandle;
      match q with
      | None =>
          e ← GetLastError;
          PrintErrorMessage "QueryServiceStatusEx" e;;
          mret false
      | Some dwCurrentState =>
          if dwCurrentState =? targetStatus then mret true
          else
            now ← steady_clock_now;
            let elapsed := duration_cast_ms (now - startTime) in
            if elapsed >=? timeoutMillis then
              emit (EvTimeout targetStatus);;
              mret false
            else
              sleep_for 250;;
              wait_loop fuel' serviceHandle targetStatus timeoutMillis startTime
      end
  end.

(** Iterations that are enough for a wait of [timeoutMillis]: every
    iteration but the last sleeps 250 ms or more. *)
Definition poll_budget (timeoutMillis : DWORD) : nat :=
  S (Z.to_nat (timeoutMillis / 250 + 1)).

Definition WaitForServiceStatus (serviceHandle : SC_HANDLE)
    (targetStatus timeoutMillis : DWORD) : M bool :=
  startTime ← steady_clock_now;
  wait_loop (poll_budget timeoutMillis) serviceHandle targetStatus timeoutMillis startTime.

Definition default_timeout : DWORD := 30000.

Arguments WaitForServiceStatus : simpl never.

Definition StopServiceByName (serviceName : string) : M bool :=
  scmHandle ← OpenSCManager SC_MANAGER_CONNECT;
  ScHandlePtr_scope scmHandle (
    if is_null scmHandle then
      e ← GetLastError;
      PrintErrorMessage "OpenSCManager" e;;
      mret false
    else
      serviceHandle ← OpenService scmHandle serviceName
                        (Z.lor SERVICE_STOP SERVICE_QUERY_STATUS);
      ScHandlePtr_scope serviceHandle (
        if is_null serviceHandle then
          e ← GetLastError;
          PrintErrorMessage "OpenService" e;;
          mret false
        else
          let wait_stopped : M bool :=
            wcout "Stop request sent. Waiting for service to terminate...";;
            WaitForServiceStatus serviceHandle SERVICE_STOPPED default_timeout in
          sent ← ControlService serviceHandle SERVICE_CONTROL_STOP;
          if sent : bool then wait_stopped
          else
            err ← GetLastError;
            if negb (err =? ERROR_SERVICE_NOT_ACTIVE) then
              PrintErrorMessage "ControlService" err;;
              mret false
            else wait_stopped)).

Definition StartServiceByName (serviceName : string) : M bool :=
  scmHandle ← OpenSCManager SC_MANAGER_CONNECT;
  ScHandlePtr_scope scmHandle (
    if is_null scmHandle then
      e ← GetLastError;
      PrintErrorMessage "OpenSCManager" e;;
      mret false
    else
      serviceHandle ← OpenService scmHandle serviceName
                        (Z.lor SERVICE_START SERVICE_QUERY_STATUS);
      ScHandlePtr_scope serviceHandle (
        if is_null serviceHandle then
          e ← GetLastError;
          PrintErrorMessage "OpenService" e;;
          mret false
        else
          started ← StartService serviceHandle;
          if started : bool then
            wcout "Start request sent. Waiting for service to run...";;
            WaitForServiceStatus serviceHandle SERVICE_RUNNING default_timeout
          else
            err ← GetLastError;
            if negb (err =? ERROR_SERVICE_ALREADY_RUNNING) then
              PrintErrorMessage "StartService" err;;
              mret false
            else
              wcout "Service is already running.";;
              mret true)).

Definition resync_command : string := "w32tm /resync /nowait".

Definition service_name : string := "w32time".

Definition stop_banner (serviceName : string) : string :=
  "--- Attempting to stop the '" +:+ serviceName +:+ "' service... ---".

Definition start_banner (serviceName : string) : string :=
  "--- Attempting to start the '" +:+ serviceName +:+ "' service... ---".

Definition main : M Z :=
  let serviceName := service_name in
  wcout (stop_banner serviceName);;
  stopped ← StopServiceByName serviceName;
  (if stopped : bool then
     wcout "Service successfully stopped.";;
     wcout (start_banner serviceName);;
     started ← StartServiceByName serviceName;
     if started : bool then
       wcout "Service successfully started.";;
       wcout "--- Resyncing system time... ---";;
       resyncResult ← system resync_command;
       if resyncResult =? 0 then
         wcout "Time resync command sent successfully."
       else
         wcerr "Failed to execute time resync command."
     else
       wcerr "Failed to start the service."
   else
     wcerr "Failed to stop the service. Aborting.");;
  wcout "Done.";;
  mret 0.

(** ** Observing a run *)

(** The events a computation adds to the trace of the world it starts in. *)
Definition events_since (w w' : World) : list Event :=
  drop (length (trace w)) (trace w').

Definition run_events {A} (m : M A) (w : World) : option (A * list Event) :=
  match m w with
  | Some (a, w') => Some (a, events_since w w')
  | None => None
  end.

Definition is_query (e : Event) : bool :=
  match e with EvQuery _ _ _ _ => true | _ => false end.

Definition is_sleep (e : Event) : bool :=
  match e with EvSleep _ => true | _ => false end.

Definition is_resync (e : Event) : bool :=
  match e with EvSystem _ _ => true | _ => false end.

Definition is_connect (e : Event) : bool :=
  match e with EvOpenSCManager _ _ => true | _ => false end.

Definition is_start_request (e : Event) : bool :=
  match e with EvStartService _ _ => true | _ => false end.

Definition is_open (e : Event) : bool :=
  match e with
  | EvOpenSCManager _ h | EvOpenService _ _ _ h => negb (is_null h)
  | _ => false
  end.

Definition is_close (e : Event) : bool :=
  match e with EvClose _ => true | _ => false end.

Fixpoint count (p : Event -> bool) (evs : list Event) : nat :=
  match evs with
  | [] => 0%nat
  | e :: evs' => ((if p e then 1 else 0) + count p evs')%nat
  end.

(** The events one wait on handle [h] can add to the trace. *)
Definition wait_event (h : SC_HANDLE) (e : Event) : Prop :=
  match e with
  | EvQuery h' _ _ _ => h' = h
  | EvSleep _ | EvPrintError _ _ | EvTimeout _ => True
  | _ => False
  end.

(** The handles an event names, the null handle apart. *)
Definition event_handles (e : Event) : list SC_HANDLE :=
  filter (fun h => h ≠ 0%N)
    match e with
    | EvOpenSCManager _ h => [h]
    | EvOpenService scm _ _ h => [scm; h]
    | EvControlService h _ _ | EvStartService h _ | EvQuery h _ _ _ | EvClose h => [h]
    | _ => []
    end.

(** A world is consistent when no handle that is open or that the trace
    names is beyond the handles handed out so far. *)
Definition handles_ok (w : World) : Prop :=
  (∀ h, h ∈ open_handles w → (h <= issued w)%N) ∧
  (∀ e h, e ∈ trace w → h ∈ event_handles e → (h <= issued w)%N).

(** ** What one wait does, poll by poll

    [polls o h T timeout start n c b evs c'] : from the loop head reached
    at clock [c] with [n] calls made so far, the loop of
    [WaitForServiceStatus] returns [b] at clock [c'] after the events
    [evs], when the operating system answers by [o].  Every poll takes the
    answer to a call of its own: the status query is call [n], the sleep
    that follows it call [n + 1], the next query call [n + 2]. *)
Inductive polls (o : nat -> Reply) (h : SC_HANDLE) (T timeout : DWORD) (start : Z)
  : nat -> Z -> bool -> list Event -> Z -> Prop :=
| polls_query_failed n c :
    r_ok (o n) = false ->
    polls o h T timeout start n c false
      [EvQuery h c false (r_state (o n));
       EvPrintError "QueryServiceStatusEx" (r_err (o n))]
      (c + Z.of_N (r_delay (o n)))
| polls_reached n c :
    r_ok (o n) = true ->
    r_state (o n) = T ->
    polls o h T timeout start n c true
      [EvQuery h c true (r_state (o n))]
      (c + Z.of_N (r_delay (o n)))
| polls_timed_out n c :
    r_ok (o n) = true ->
    r_state (o n) ≠ T ->
    timeout <= duration_cast_ms (c + Z.of_N (r_delay (o n)) - start) ->
    polls o h T timeout start n c false
      [EvQuery h c true (r_state (o n)); EvTimeout T]
      (c + Z.of_N (r_delay (o n)))
| polls_again n c b evs c' :
    r_ok (o n) = true ->
    r_state (o n) ≠ T ->
    duration_cast_ms (c + Z.of_N (r_delay (o n)) - start) < timeout ->
    polls o h T timeout start (S (S n))
      (c + Z.of_N (r_delay (o n)) + 250 * ns_per_ms + Z.of_N (r_delay (o (S n))))
      b evs c' ->
    polls o h T timeout start n c b
      (EvQuery h c true (r_state (o n)) :: EvSleep 250 :: evs) c'.

(** The iterations still needed at a loop head where [e] ms have elapsed. *)
Definition polls_left (timeout e : Z) : Z :=
  Z.max 0 ((timeout - e) / 250 + 1) + 1.

(** What stays as it was across a wait. *)
Definition same_handles (w w' : World) : Prop :=
  os w' = os w ∧ issued w' = issued w ∧ open_handles w' = open_handles w.

(** ** What one stop and one start do, path by path

    [stop_path o name n i b evs i'] : entered with [n] calls made and [i]
    handles handed out so far, [StopServiceByName name] returns [b] after
    the events [evs] and with [i'] handles handed out, when the operating
    system answers by [o].  The manager handle is [i + 1], the service
    handle [i + 2]. *)
Inductive stop_path (o : nat -> Reply) (name : string) (n : nat) (i : N)
  : bool -> list Event -> N -> Prop :=
| stop_no_manager :
    r_ok (o n) = false ->
    stop_path o name n i false
      [EvOpenSCManager SC_MANAGER_CONNECT 0%N;
       EvPrintError "OpenSCManager" (r_err (o n))]
      i
| stop_no_service :
    r_ok (o n) = true ->
    r_ok (o (S n)) = false ->
    stop_path o name n i false
      [EvOpenSCManager SC_MANAGER_CONNECT (N.succ i);
       EvOpenService (N.succ i) name (Z.lor SERVICE_STOP SERVICE_QUERY_STATUS) 0%N;
       EvPrintError "OpenService" (r_err (o (S n)));
       EvClose (N.succ i)]
      (N.succ i)
| stop_rejected :
    r_ok (o n) = true ->
    r_ok (o (S n)) = true ->
    r_ok (o (S (S n))) = false ->
    r_err (o (S (S n))) ≠ ERROR_SERVICE_NOT_ACTIVE ->
    stop_path o name n i false
      [EvOpenSCManager SC_MANAGER_CONNECT (N.succ i);
       EvOpenService (N.succ i) name (Z.lor SERVICE_STOP SERVICE_QUERY_STATUS)
         (N.succ (N.succ i));
       EvControlService (N.succ (N.succ i)) SERVICE_CONTROL_STOP false;
       EvPrintError "ControlService" (r_err (o (S (S n))));
       EvClose (N.succ (N.succ i));
       EvClose (N.succ i)]
      (N.succ (N.succ i))
| stop_waited b evs c c' :
    r_ok (o n) = true ->
    r_ok (o (S n)) = true ->
    r_ok (o (S (S n))) = true ∨ r_err (o (S (S n))) = ERROR_SERVICE_NOT_ACTIVE ->
    polls o (N.succ (N.succ i)) SERVICE_STOPPED default_timeout c
      (S (S (S n))) c b evs c' ->
    stop_path o name n i b
      (EvOpenSCManager SC_MANAGER_CONNECT (N.succ i) ::
       EvOpenService (N.succ i) name (Z.lor SERVICE_STOP SERVICE_QUERY_STATUS)
         (N.succ (N.succ i)) ::
       EvControlService (N.succ (N.succ i)) SERVICE_CONTROL_STOP (r_ok (o (S (S n)))) ::
       EvCout "Stop request sent. Waiting for service to terminate..." ::
       evs ++ [EvClose (N.succ (N.succ i)); EvClose (N.succ i)])
      (N.succ (N.succ i)).

Inductive start_path (o : nat -> Reply) (name : string) (n : nat) (i : N)
  : bool -> list Event -> N -> Prop :=
| start_no_manager :
    r_ok (o n) = false ->
    start_path o name n i false
      [EvOpenSCManager SC_MANAGER_CONNECT 0%N;
       EvPrintError "OpenSCManager" (r_err (o n))]
      i
| start_no_service :
    r_ok (o n) = true ->
    r_ok (o (S n)) = false ->
    start_path o name n i false
      [EvOpenSCManager SC_MANAGER_CONNECT (N.succ i);
       EvOpenService (N.succ i) name (Z.lor SERVICE_START SERVICE_QUERY_STATUS) 0%N;
       EvPrintError "OpenService" (r_err (o (S n)));
       EvClose (N.succ i)]
      (N.succ i)
| start_rejected :
    r_ok (o n) = true ->
    r_ok (o (S n)) = true ->
    r_ok (o (S (S n))) = false ->
    r_err (o (S (S n))) ≠ ERROR_SERVICE_ALREADY_RUNNING ->
    start_path o name n i false
      [EvOpenSCManager SC_MANAGER_CONNECT (N.succ i);
       EvOpenService (N.succ i) name (Z.lor SERVICE_START SERVICE_QUERY_STATUS)
         (N.succ (N.succ i));
       EvStartService (N.succ (N.succ i)) false;
       EvPrintError "StartService" (r_err (o (S (S n))));
       EvClose (N.succ (N.succ i));
       EvClose (N.succ i)]
      (N.succ (N.succ i))
| start_already_running :
    r_ok (o n) = true ->
    r_ok (o (S n)) = true ->
    r_ok (o (S (S n))) = false ->
    r_err (o (S (S n))) = ERROR_SERVICE_ALREADY_RUNNING ->
    start_path o name n i true
      [EvOpenSCManager SC_MANAGER_CONNECT (N.succ i);
       EvOpenService (N.succ i) name (Z.lor SERVICE_START SERVICE_QUERY_STATUS)
         (N.succ (N.succ i));
       EvStartService (N.succ (N.succ i)) false;
       EvCout "Service is already running.";
       EvClose (N.succ (N.succ i));
       EvClose (N.succ i)]
      (N.succ (N.succ i))
| start_waited b evs c c' :
    r_ok (o n) = true ->
    r_ok (o (S n)) = true ->
    r_ok (o (S (S n))) = true ->
    polls o (N.succ (N.succ i)) SERVICE_RUNNING default_timeout c
      (S (S (S n))) c b evs c' ->
    start_path o name n i b
      (EvOpenSCManager SC_MANAGER_CONNECT (N.succ i) ::
       EvOpenService (N.succ i) name (Z.lor SERVICE_START SERVICE_QUERY_STATUS)
         (N.succ (N.succ i)) ::
       EvStartService (N.succ (N.succ i)) true ::
       EvCout "Start request sent. Waiting for service to run..." ::
       evs ++ [EvClose (N.succ (N.succ i)); EvClose (N.succ i)])
      (N.succ (N.succ i)).

(** An event of an operation entered with [i] handles handed out and
    left with [i']: it is not the resync command and it names only
    handles handed out in between. *)
Definition own_event (i i' : N) (e : Event) : Prop :=
  is_resync e = false ∧ ∀ h, h ∈ event_handles e -> (i < h <= i')%N.

(** The last lines [main] writes after a start that returned [started]:
    the resync command is run exactly when [started] is [true], and [rc]
    is what it returns. *)
Definition after_start (started : bool) (rc : Z) : list Event :=
  if started then
    [EvCout "Service successfully started.";
     EvCout "--- Resyncing system time... ---";
     EvSystem resync_command rc;
     if rc =? 0 then EvCout "Time resync command sent successfully."
     else EvCerr "Failed to execute time resync command.";
     EvCout "Done."]
  else
    [EvCerr "Failed to start the service."; EvCout "Done."].

(** Every handle handed out between [w] and [w'] has been closed, and no
    other handle has been touched. *)
Definition released (w w' : World) : Prop :=
  (issued w <= issued w')%N ∧
  ∀ h, h ∈ open_handles w' <->
       h ∈ open_handles w ∧ ¬ (issued w < h <= issued w')%N.

(** What it is for an operation that took [w] to [w'] with the events
    [evs] to have closed its scopes: the open handles are those of [w];
    [evs] closes as many handles as it opens; and every handle [evs] names
    was handed out during the operation, so that no earlier event names
    it. *)
Definition scopes_closed (w w' : World) (evs : list Event) : Prop :=
  open_handles w' = open_handles w ∧
  handles_ok w' ∧
  count is_open evs = count is_close evs ∧
  ∀ e h, e ∈ evs -> h ∈ event_handles e ->
         (issued w < h)%N ∧ ∀ e0, e0 ∈ trace w -> h ∉ event_handles e0.

(** ** Concrete worlds *)

(** An operating system that answers the first calls by [rs] and every
    later one by [rest]. *)
Definition scripted (rs : list Reply) (rest : Reply) : nat -> Reply :=
  fun n => default rest (rs !! n).

(** The world at process start. *)
Definition boot (o : nat -> Reply) : World :=
  {| os := o; calls := 0; clock := 0; last_error := 0; issued := 0;
     open_handles := ∅; trace := [] |}.

(** A call that succeeds at once, a status query that reports [state], a
    call that takes [delay] ns, a call that fails with [err]. *)
Definition done_reply : Reply := mkReply true 0 0 0 0.
Definition state_reply (state : DWORD) : Reply := mkReply true 0 state 0 0.
Definition slow_reply (state : DWORD) (delay : N) : Reply := mkReply true 0 state 0 delay.
Definition fail_reply (err : DWORD) : Reply := mkReply false err 0 0 0.
Definition exit_reply (rc : Z) : Reply := mkReply true 0 0 rc 0.

(** A wait in the world the running service is in, whose status queries
    never fail and never report [T]. *)
Definition never_matches (T : DWORD) (w : World) : Prop :=
  ∀ k, (calls w <= k)%nat -> r_ok (os w k) = true ∧ r_state (os w k) ≠ T.

(** The two timing properties of a wait in the words of the
    specification: [true] exactly when a query issued no later than the
    timeout reported the target; and, when nothing ever matches, a return
    no later than timeout + 250 ms after the start. *)
Definition true_iff_matched_within_timeout (h : SC_HANDLE) (T timeout : DWORD)
    (w : World) : Prop :=
  ∀ b evs,
    run_events (WaitForServiceStatus h T timeout) w = Some (b, evs) ->
    b = true <->
    ∃ t, EvQuery h t true T ∈ evs ∧ t - clock w <= timeout * ns_per_ms.

Definition returns_within_timeout_plus_interval (h : SC_HANDLE) (T timeout : DWORD)
    (w : World) : Prop :=
  never_matches T w ->
  ∃ w', WaitForServiceStatus h T timeout w = Some (false, w') ∧
        clock w' - clock w <= (timeout + 250) * ns_per_ms.

(** The exit status in the words of the specification: 1 after a failed
    stop, 2 after a failed start, and after a start that succeeded 0, 3
    or 4 by what the resync command returned ([system] returns -1 when
    the command could not be invoked). *)
Definition exit_status_names_outcome (w : World) : Prop :=
  ∀ status w' stopped w1,
    main w = Some (status, w') ->
    StopServiceByName service_name (log (EvCout (stop_banner service_name)) w)
      = Some (stopped, w1) ->
    (stopped = false -> status = 1) ∧
    (stopped = true ->
     ∀ started w2,
       StartServiceByName service_name
         (log (EvCout (start_banner service_name))
            (log (EvCout "Service successfully stopped.") w1))
         = Some (started, w2) ->
       (started = false -> status = 2) ∧
       (started = true ->
        let rc := r_rc (os w (calls w2)) in
        (rc = 0 -> status = 0) ∧
        (rc = -1 -> status = 4) ∧
        (rc ≠ 0 -> rc ≠ -1 -> status = 3))).

(** The service is seen Running, then Stopped on the second query. *)
Definition late_stop_world : World :=
  boot (scripted [state_reply SERVICE_RUNNING; done_reply;
                  state_reply SERVICE_STOPPED] done_reply).

(** The first status query takes 500 ms and reports Stopped. *)
Definition slow_stop_world : World :=
  boot (scripted [slow_reply SERVICE_STOPPED 500000000] done_reply).

(** The service is not active when the stop request arrives. *)
Definition not_active_world : World :=
  boot (scripted [done_reply; done_reply; fail_reply ERROR_SERVICE_NOT_ACTIVE;
                  state_reply SERVICE_STOPPED] done_reply).

(** The service is running when the start request arrives. *)
Definition already_running_world : World :=
  boot (scripted [done_reply; done_reply;
                  fail_reply ERROR_SERVICE_ALREADY_RUNNING] done_reply).

(** The service is Running; it stops and starts again, each through its
    pending state, and the resync command returns 0.  In call order:
    two opens, the stop request, three status queries with two sleeps
    between them, two closes; then the same for the start with two
    status queries; then the resync command. *)
Definition restart_world : World :=
  boot (scripted
          [done_reply; done_reply; done_reply;
           state_reply SERVICE_RUNNING; done_reply;
           state_reply SERVICE_STOP_PENDING; done_reply;
           state_reply SERVICE_STOPPED;
           done_reply; done_reply;
           done_reply; done_reply; done_reply;
           state_reply SERVICE_START_PENDING; done_reply;
           state_reply SERVICE_RUNNING;
           done_reply; done_reply;
           exit_reply 0]
          done_reply).

(** The service control manager cannot be reached. *)
Definition no_manager_world : World :=
  boot (scripted [fail_reply ERROR_ACCESS_DENIED] done_reply).

(** The service stays Running; no call takes time. *)
Definition running_world : World :=
  boot (scripted [] (state_reply SERVICE_RUNNING)).

(** The service stays Running; the first sleep lasts 150 ms too long. *)
Definition overslept_world : World :=
  boot (scripted [state_reply SERVICE_RUNNING;
                  slow_reply SERVICE_RUNNING 150000000]
          (state_reply SERVICE_RUNNING)).

(** ** Further observations of a run *)

(** The lines that report a failure of a service call or of a wait. *)
Definition is_diagnostic (e : Event) : bool :=
  match e with EvPrintError _ _ | EvTimeout _ => true | _ => false end.

Definition is_stop_request (e : Event) : bool :=
  match e with EvControlService _ _ _ => true | _ => false end.

(** The handles open after an event, and what an event needs of the
    handles open before it: a call that takes a handle is given one that
    is open, and only an open handle is closed. *)
Definition handles_after_event (open : gset SC_HANDLE) (e : Event) : gset SC_HANDLE :=
  match e with
  | EvOpenSCManager _ h | EvOpenService _ _ _ h =>
      if is_null h then open else {[ h ]} ∪ open
  | EvClose h => open ∖ {[ h ]}
  | _ => open
  end.

Definition uses_open_handle (open : gset SC_HANDLE) (e : Event) : Prop :=
  match e with
  | EvOpenService h _ _ _ | EvControlService h _ _ | EvStartService h _
  | EvQuery h _ _ _ | EvClose h => h ∈ open
  | _ => True
  end.

Fixpoint handle_discipline (open : gset SC_HANDLE) (evs : list Event) : Prop :=
  match evs with
  | [] => True
  | e :: evs' =>
      uses_open_handle open e ∧ handle_discipline (handles_after_event open e) evs'
  end.

Definition handles_after (open : gset SC_HANDLE) (evs : list Event) : gset SC_HANDLE :=
  foldl handles_after_event open evs.

(** A status query on any handle that reported [state]. *)
Definition observed (state : DWORD) (evs : list Event) : Prop :=
  ∃ h t, EvQuery h t true state ∈ evs.

(** The stop request is accepted and every later call succeeds, but no
    status query ever reports Stopped. *)
Definition never_stops (w : World) : Prop :=
  ∀ k, (calls w <= k)%nat ->
       r_ok (os w k) = true ∧ r_state (os w k) ≠ SERVICE_STOPPED.

(** The service control manager is reached but the service cannot be
    opened. *)
Definition no_service_world : World :=
  boot (scripted [done_reply; fail_reply ERROR_ACCESS_DENIED] done_reply).

(** * Properties *)

(** ** Running computations *)

(** Case analysis on membership in an explicit list. *)
Ltac in_cases H :=
  rewrite ?elem_of_cons, ?elem_of_nil in H;
  repeat match type of H with _ ∨ _ => destruct H as [H | H] end;
  try discriminate H; try contradiction.

Lemma is_null_succ n : is_null (N.succ n) = false.
Proof. unfold is_null. apply N.eqb_neq. lia. Qed.

(** Unfolds the operating-system calls and the monad down to worlds. *)
Ltac exec :=
  repeat (progress (
    unfold OpenSCManager, OpenService, ControlService, StartService,
      QueryServiceStatusEx, CloseServiceHandle, GetLastError, sleep_for,
      system, wcout, wcerr, PrintErrorMessage, ServiceHandleDeleter,
      ScHandlePtr_scope, steady_clock_now, os_call, emit, give_back,
      open_result, bool_result, mbind, M_bind, mret, M_ret;
    cbn -[Z.mul Z.add tick log set_last_error alloc release wait_loop
          WaitForServiceStatus StopServiceByName StartServiceByName
          stop_banner start_banner])).

Lemma events_since_app (w w' : World) (evs : list Event) :
  trace w' = trace w ++ evs -> events_since w w' = evs.
Proof.
  intros E. unfold events_since. rewrite E. apply drop_app_length.
Qed.

Lemma run_events_intro {A} (m : M A) (w w' : World) (a : A) (evs : list Event) :
  m w = Some (a, w') ->
  trace w' = trace w ++ evs ->
  run_events m w = Some (a, evs).
Proof.
  intros Hm E. unfold run_events. rewrite Hm.
  by rewrite (events_since_app _ _ _ E).
Qed.

Ltac step := repeat (progress (exec; rewrite ?is_null_succ; simpl)).

(** ** The polling loop *)

(** One iteration of the loop, as a function of the answer to its query. *)
Lemma wait_loop_S fuel h T timeout start w :
  wait_loop (S fuel) h T timeout start w =
  let r := os w (calls w) in
  if r_ok r then
    let w1 := log (EvQuery h (clock w) true (r_state r)) (tick 0 w) in
    if r_state r =? T then Some (true, w1)
    else if duration_cast_ms (clock w1 - start) >=? timeout then
      Some (false, log (EvTimeout T) w1)
    else
      wait_loop fuel h T timeout start (log (EvSleep 250) (tick (250 * ns_per_ms) w1))
  else
    Some (false,
          log (EvPrintError "QueryServiceStatusEx" (r_err r))
            (log (EvQuery h (clock w) false (r_state r))
               (set_last_error (r_err r) (tick 0 w)))).
Proof.
  cbn [wait_loop]. exec.
  destruct (r_ok (os w (calls w))); exec; [| reflexivity].
  destruct (r_state (os w (calls w)) =? T); [reflexivity |].
  destruct (_ >=? timeout); reflexivity.
Qed.

(** The loop does what [polls] says, and touches no handle. *)
Lemma wait_loop_polls fuel h T timeout start : forall w b w',
  wait_loop fuel h T timeout start w = Some (b, w') ->
  same_handles w w' ∧
  ∃ evs, trace w' = trace w ++ evs ∧
         polls (os w) h T timeout start (calls w) (clock w) b evs (clock w').
Proof.
  induction fuel as [| fuel IH]; intros w b w' Hrun; [discriminate |].
  rewrite wait_loop_S in Hrun. cbv zeta in Hrun.
  destruct (r_ok (os w (calls w))) eqn:Hok.
  - destruct (r_state (os w (calls w)) =? T) eqn:Hst.
    + apply Z.eqb_eq in Hst. injection Hrun as <- <-.
      split; [done |]. eexists. split; [reflexivity |].
      simpl. rewrite Z.add_0_r. by apply polls_reached.
    + apply Z.eqb_neq in Hst.
      destruct (_ >=? timeout) eqn:Hto.
      * injection Hrun as <- <-.
        split; [done |]. eexists. split; [simpl; by rewrite <- app_assoc |].
        simpl. rewrite Z.add_0_r. apply polls_timed_out; [done | done |].
        simpl in Hto. rewrite Z.add_0_r in Hto. lia.
      * apply IH in Hrun as [(Ho & Hi & Hh) (evs & Etr & Hp)].
        split; [done |]. simpl in *.
        eexists. split; [rewrite Etr, <- !app_assoc; reflexivity |].
        rewrite Z.add_0_r in *.
        apply polls_again; [done | done | lia |].
        exact Hp.
  - injection Hrun as <- <-.
    split; [done |]. eexists. split; [simpl; by rewrite <- app_assoc |].
    simpl. rewrite Z.add_0_r. by apply polls_query_failed.
Qed.

(** ** Time *)

Lemma duration_cast_ms_nonneg d : 0 <= d -> duration_cast_ms d = d / ns_per_ms.
Proof. intros Hd. unfold duration_cast_ms. by apply Z.quot_div_nonneg. Qed.

Lemma duration_cast_ms_0 : duration_cast_ms 0 = 0.
Proof. reflexivity. Qed.

Lemma duration_cast_ms_mono d d' :
  0 <= d -> d <= d' -> duration_cast_ms d <= duration_cast_ms d'.
Proof.
  intros Hd Hle. rewrite !duration_cast_ms_nonneg by lia.
  by apply Z.div_le_mono.
Qed.

(** While the elapsed milliseconds are below the timeout, so are the
    elapsed nanoseconds; once they are not, neither are these. *)
Lemma duration_cast_ms_lt d timeout :
  0 <= d -> (duration_cast_ms d < timeout <-> d < timeout * ns_per_ms).
Proof.
  intros Hd. rewrite duration_cast_ms_nonneg by done. unfold ns_per_ms.
  split; intros H; Z.div_mod_to_equations; lia.
Qed.

(** A sleep of 250 ms moves the elapsed milliseconds by 250 or more. *)
Lemma elapsed_after_sleep d x :
  0 <= d -> 0 <= x ->
  duration_cast_ms d + 250 <= duration_cast_ms (d + 250 * ns_per_ms + x).
Proof.
  intros Hd Hx. rewrite !duration_cast_ms_nonneg by (unfold ns_per_ms; lia).
  unfold ns_per_ms. Z.div_mod_to_equations; lia.
Qed.

Lemma polls_left_step timeout e e' (fuel : nat) :
  e < timeout -> e + 250 <= e' ->
  polls_left timeout e <= Z.of_nat (S fuel) ->
  polls_left timeout e' <= Z.of_nat fuel.
Proof.
  unfold polls_left. intros Hlt Hstep Hfuel.
  Z.div_mod_to_equations; lia.
Qed.

Lemma poll_budget_enough timeout :
  polls_left timeout 0 <= Z.of_nat (poll_budget timeout).
Proof.
  unfold polls_left, poll_budget. rewrite Z.sub_0_r. lia.
Qed.

(** ** The loop returns *)

Lemma wait_loop_total fuel h T timeout start : forall w,
  start <= clock w ->
  polls_left timeout (duration_cast_ms (clock w - start)) <= Z.of_nat fuel ->
  ∃ b w', wait_loop fuel h T timeout start w = Some (b, w').
Proof.
  induction fuel as [| fuel IH]; intros w Hstart Hfuel.
  { unfold polls_left in Hfuel. lia. }
  rewrite wait_loop_S. cbv zeta.
  destruct (r_ok (os w (calls w))); [| eauto].
  destruct (_ =? T); [eauto |].
  destruct (_ >=? timeout) eqn:Hto; [eauto |].
  simpl in Hto. rewrite Z.add_0_r in Hto.
  set (d := Z.of_N (r_delay (os w (calls w)))) in *.
  set (x := Z.of_N (r_delay (os w (S (calls w))))).
  assert (0 <= d) by (subst d; lia). assert (0 <= x) by (subst x; lia).
  apply IH; simpl; rewrite Z.add_0_r; fold d x; [ unfold ns_per_ms; lia |].
  eapply polls_left_step; [| | exact Hfuel].
  - pose proof (duration_cast_ms_mono (clock w - start) (clock w + d - start)).
    lia.
  - pose proof (elapsed_after_sleep (clock w - start) (d + x)).
    replace (clock w + d + 250 * ns_per_ms + x - start)
      with (clock w - start + 250 * ns_per_ms + (d + x)) by lia.
    lia.
Qed.

(** Fuel beyond what a run needs changes nothing. *)
Lemma wait_loop_more_fuel fuel h T timeout start : forall fuel' w r,
  (fuel <= fuel')%nat ->
  wait_loop fuel h T timeout start w = Some r ->
  wait_loop fuel' h T timeout start w = Some r.
Proof.
  induction fuel as [| fuel IH]; intros fuel' w r Hle Hrun; [discriminate |].
  destruct fuel' as [| fuel']; [lia |].
  rewrite wait_loop_S in *. cbv zeta in *.
  destruct (r_ok (os w (calls w))); [| done].
  destruct (_ =? T); [done |].
  destruct (_ >=? timeout); [done |].
  apply IH; [lia | done].
Qed.

(** [WaitForServiceStatus] returns in every world, and what it does is a
    run of [polls] from the clock reading it starts with. *)
Lemma WaitForServiceStatus_polls h T timeout w :
  ∃ b w' evs,
    WaitForServiceStatus h T timeout w = Some (b, w') ∧
    trace w' = trace w ++ evs ∧
    polls (os w) h T timeout (clock w) (calls w) (clock w) b evs (clock w') ∧
    same_handles w w'.
Proof.
  unfold WaitForServiceStatus. exec.
  destruct (wait_loop_total (poll_budget timeout) h T timeout (clock w) w)
    as (b & w' & Hrun).
  - lia.
  - rewrite Z.sub_diag, duration_cast_ms_0. apply poll_budget_enough.
  - exists b, w'. apply wait_loop_polls in Hrun as Hspec.
    destruct Hspec as [Hsame (evs & Etr & Hp)]. eauto 10.
Qed.

(** ** What follows from [polls] *)

Section Polls.

Context (o : nat -> Reply) (h : SC_HANDLE) (T timeout : DWORD) (start : Z).

Abbreviation run := (polls o h T timeout start).

(** The result is [true] exactly when some query reported the target. *)
Lemma polls_true_iff n c b evs c' :
  run n c b evs c' ->
  b = true <-> ∃ t, EvQuery h t true T ∈ evs.
Proof.
  induction 1 as [n c Hok | n c Hok Hst | n c Hok Hst Hto
                 | n c b evs c' Hok Hst Hlt Hrun IH].
  - split; [done |]. intros [t Hin]. in_cases Hin.
  - split; [| done]. intros _. exists c. rewrite Hst. apply list_elem_of_here.
  - split; [done |]. intros [t Hin]. in_cases Hin. congruence.
  - rewrite IH. split; intros [t Hin]; exists t.
    + by do 2 apply list_elem_of_further.
    + in_cases Hin; [congruence | done].
Qed.

(** A wait that returns [true] ends on the query that reported the
    target: nothing is done after it. *)
Lemma polls_true_last n c evs c' :
  run n c true evs c' ->
  ∃ t, last evs = Some (EvQuery h t true T).
Proof.
  intros Hrun. remember true as b eqn:Hb.
  induction Hrun as [n c Hok | n c Hok Hst | n c Hok Hst Hto
                    | n c b evs c' Hok Hst Hlt Hrun IH]; try discriminate.
  - exists c. by rewrite Hst.
  - destruct (IH Hb) as [t Ht]. exists t.
    destruct evs as [| e evs]; [discriminate |].
    by rewrite !last_cons_cons.
Qed.

(** A query that failed is followed by the error message and nothing
    else, and the result is [false]. *)
Lemma polls_failed_last n c b evs c' t st :
  run n c b evs c' ->
  EvQuery h t false st ∈ evs ->
  b = false ∧
  ∃ evs0 e, evs = evs0 ++ [EvQuery h t false st; EvPrintError "QueryServiceStatusEx" e].
Proof.
  induction 1 as [n c Hok | n c Hok Hst | n c Hok Hst Hto
                 | n c b evs c' Hok Hst Hlt Hrun IH]; intros Hin.
  - in_cases Hin.
    injection Hin as -> ->. split; [done |]. by exists [], (r_err (o n)).
  - in_cases Hin.
  - in_cases Hin.
  - in_cases Hin.
    destruct (IH Hin) as (-> & evs0 & e & ->). split; [done |].
    by exists (EvQuery h c true (r_state (o n)) :: EvSleep 250 :: evs0), e.
Qed.

(** Polls and sleeps alternate: one status query more than sleeps. *)
Lemma polls_counts n c b evs c' :
  run n c b evs c' ->
  count is_query evs = S (count is_sleep evs).
Proof.
  induction 1; simpl; [done | done | done | lia].
Qed.

(** The timeout message comes only after queries that all succeeded
    without reporting the target. *)
Lemma polls_timeout_only_unmatched n c b evs c' :
  run n c b evs c' ->
  EvTimeout T ∈ evs ->
  ∀ t ok st, EvQuery h t ok st ∈ evs -> ok = true ∧ st ≠ T.
Proof.
  induction 1 as [n c Hok | n c Hok Hst | n c Hok Hst Hto
                 | n c b evs c' Hok Hst Hlt Hrun IH]; intros Hin t ok st Hq.
  - in_cases Hin.
  - in_cases Hin.
  - in_cases Hq. by injection Hq as -> -> ->.
  - in_cases Hin. in_cases Hq; [| by eapply IH].
    by injection Hq as -> -> ->.
Qed.

(** A wait adds nothing to the trace but its own polls. *)
Lemma polls_wait_events n c b evs c' :
  run n c b evs c' -> Forall (wait_event h) evs.
Proof.
  induction 1; repeat constructor; done.
Qed.

(** When every query succeeds and none reports the target, the wait
    ends on the timeout message, at a time when the milliseconds
    elapsed since [start] have reached the timeout. *)
Lemma polls_never_matching n c b evs c' :
  (∀ k, (n <= k)%nat -> r_ok (o k) = true ∧ r_state (o k) ≠ T) ->
  run n c b evs c' ->
  b = false ∧ last evs = Some (EvTimeout T) ∧
  timeout <= duration_cast_ms (c' - start).
Proof.
  intros Hos Hrun.
  induction Hrun as [n c Hok | n c Hok Hst | n c Hok Hst Hto
                    | n c b evs c' Hok Hst Hlt Hrun IH].
  - destruct (Hos n) as [? _]; [lia | congruence].
  - destruct (Hos n) as [_ ?]; [lia | congruence].
  - done.
  - destruct IH as (-> & Hlast & Hto); [intros k Hk; apply Hos; lia |].
    split; [done |]. split; [| done].
    destruct evs as [| e evs]; [discriminate |].
    by rewrite !last_cons_cons.
Qed.

(** The clock at return, when no call takes longer than [D]: from a
    loop head reached less than [timeout] ms + 250 ms + [D] after
    [start], the wait is over before [timeout] ms + 250 ms + 2 [D]. *)
Lemma polls_clock_bound (D : Z) n c b evs c' :
  (∀ k, (n <= k)%nat -> Z.of_N (r_delay (o k)) <= D) ->
  run n c b evs c' ->
  start <= c ->
  c - start < timeout * ns_per_ms + 250 * ns_per_ms + D ->
  c <= c' ∧ c' - start < timeout * ns_per_ms + 250 * ns_per_ms + 2 * D.
Proof.
  intros Hos Hrun.
  induction Hrun as [n c Hok | n c Hok Hst | n c Hok Hst Hto
                    | n c b evs c' Hok Hst Hlt Hrun IH]; intros Hstart Hhead.
  1-3: pose proof (Hos n ltac:(lia)); lia.
  pose proof (Hos n ltac:(lia)). pose proof (Hos (S n) ltac:(lia)).
  apply duration_cast_ms_lt in Hlt; [| lia].
  destruct IH as [Hle Hbound]; [intros k Hk; apply Hos; lia | | | ].
  - unfold ns_per_ms. lia.
  - lia.
  - unfold ns_per_ms in *. lia.
Qed.

(** With a timeout that has already passed at the first loop head, the
    wait is one query and no sleep. *)
Lemma polls_single n c b evs c' :
  run n c b evs c' ->
  start <= c ->
  timeout <= duration_cast_ms (c - start) ->
  (count is_query evs = 1 ∧ count is_sleep evs = 0)%nat ∧
  b = (r_ok (o n) && (r_state (o n) =? T)) ∧
  (r_ok (o n) = true -> r_state (o n) ≠ T -> last evs = Some (EvTimeout T)).
Proof.
  intros Hrun Hstart Hto.
  destruct Hrun as [n c Hok | n c Hok Hst | n c Hok Hst Hto'
                   | n c b evs c' Hok Hst Hlt Hrun].
  - rewrite Hok. split; [done |]. split; [done | congruence].
  - rewrite Hok. apply Z.eqb_eq in Hst as Hst'. rewrite Hst'.
    split; [done |]. split; [done | congruence].
  - rewrite Hok. apply Z.eqb_neq in Hst as Hst'. rewrite Hst'.
    split; [done |]. split; done.
  - pose proof (duration_cast_ms_mono (c - start)
                  (c + Z.of_N (r_delay (o n)) - start)).
    lia.
Qed.

End Polls.

(** ** WaitForServiceStatus *)

Lemma WaitForServiceStatus_run h T timeout w :
  ∃ b evs w',
    WaitForServiceStatus h T timeout w = Some (b, w') ∧
    run_events (WaitForServiceStatus h T timeout) w = Some (b, evs) ∧
    trace w' = trace w ++ evs ∧
    polls (os w) h T timeout (clock w) (calls w) (clock w) b evs (clock w').
Proof.
  destruct (WaitForServiceStatus_polls h T timeout w)
    as (b & w' & evs & Hrun & Etr & Hp & _).
  exists b, evs, w'. split; [done |]. split; [| done].
  by eapply run_events_intro.
Qed.

Lemma run_events_WaitForServiceStatus h T timeout w b evs :
  run_events (WaitForServiceStatus h T timeout) w = Some (b, evs) ->
  ∃ c', polls (os w) h T timeout (clock w) (calls w) (clock w) b evs c'.
Proof.
  destruct (WaitForServiceStatus_run h T timeout w)
    as (b0 & evs0 & w' & _ & Hev & _ & Hp).
  rewrite Hev. intros [= <- <-]. eauto.
Qed.

(** C1 (as amended).  [WaitForServiceStatus] returns, and it returns
    [true] if and only if some status query it issued reported the target
    state, whenever that query was issued; when it returns [true] the
    matching query is the last thing it did: it neither sleeps nor
    queries again. *)
Theorem wait_true_iff_a_query_matched h T timeout w :
  ∃ b evs,
    run_events (WaitForServiceStatus h T timeout) w = Some (b, evs) ∧
    (b = true <-> ∃ t, EvQuery h t true T ∈ evs) ∧
    (b = true -> ∃ t, last evs = Some (EvQuery h t true T)).
Proof.
  destruct (WaitForServiceStatus_run h T timeout w)
    as (b & evs & w' & _ & Hev & _ & Hp).
  exists b, evs. split; [done |]. split.
  - by eapply polls_true_iff.
  - intros ->. by eapply polls_true_last.
Qed.

(** C1 (as stated) fails.  With a timeout of 100 ms the first query
    reports Running, the loop sleeps 250 ms, and the second query, issued
    250 ms after the start, reports Stopped: the wait returns [true]
    though no query issued within the timeout reported the target. *)
Lemma wait_true_without_match_within_timeout :
  run_events (WaitForServiceStatus 1%N SERVICE_STOPPED 100) late_stop_world
  = Some (true, [EvQuery 1%N 0 true SERVICE_RUNNING; EvSleep 250;
                 EvQuery 1%N 250000000 true SERVICE_STOPPED]) ∧
  ¬ true_iff_matched_within_timeout 1%N SERVICE_STOPPED 100 late_stop_world.
Proof.
  assert (Hrun : run_events (WaitForServiceStatus 1%N SERVICE_STOPPED 100) late_stop_world
                 = Some (true, [EvQuery 1%N 0 true SERVICE_RUNNING; EvSleep 250;
                                EvQuery 1%N 250000000 true SERVICE_STOPPED]))
    by (vm_compute; reflexivity).
  split; [exact Hrun |].
  intros Hclaim. destruct (Hclaim _ _ Hrun) as [Hfwd _].
  destruct (Hfwd eq_refl) as (t & Hin & Hle).
  in_cases Hin. injection Hin as ->. vm_compute in Hle. by apply Hle.
Qed.

(** C6.  Every poll of a wait is a status query of its own, answered by
    the operating system at that moment ([polls]: one query more than
    sleeps, each the answer to a call of its own); a failed query is
    fatal: it is the last query, it is followed by the error message
    alone, and the wait returns [false].  In particular a wait whose
    first query fails does nothing else. *)
Theorem failed_query_is_fatal h T timeout w :
  ∃ b evs c',
    run_events (WaitForServiceStatus h T timeout) w = Some (b, evs) ∧
    polls (os w) h T timeout (clock w) (calls w) (clock w) b evs c' ∧
    count is_query evs = S (count is_sleep evs) ∧
    (∀ t st, EvQuery h t false st ∈ evs ->
       b = false ∧
       ∃ evs0 e, evs = evs0 ++ [EvQuery h t false st;
                                EvPrintError "QueryServiceStatusEx" e]) ∧
    (r_ok (os w (calls w)) = false ->
       b = false ∧
       evs = [EvQuery h (clock w) false (r_state (os w (calls w)));
              EvPrintError "QueryServiceStatusEx" (r_err (os w (calls w)))]).
Proof.
  destruct (WaitForServiceStatus_run h T timeout w)
    as (b & evs & w' & _ & Hev & _ & Hp).
  exists b, evs, (clock w'). split; [done |]. split; [done |].
  split; [by eapply polls_counts |]. split.
  - intros t st Hin. by eapply polls_failed_last.
  - intros Hfail. inversion Hp; subst; [done | congruence ..].
Qed.

(** C7 (as amended).  When every status query succeeds and none reports
    the target, the wait returns [false] on the timeout message, at a
    time when the milliseconds elapsed since its start have reached the
    timeout; when no call takes longer than [D] ns (a sleep: 250 ms and
    up to [D] more) it is over less than timeout + 250 ms + 2 [D] after
    its start.  The elapsed time is taken from the one clock reading
    made before the first query. *)
Theorem wait_times_out_within_bound h T timeout w D :
  0 <= timeout ->
  never_matches T w ->
  (∀ k, (calls w <= k)%nat -> Z.of_N (r_delay (os w k)) <= D) ->
  ∃ w' evs,
    WaitForServiceStatus h T timeout w = Some (false, w') ∧
    trace w' = trace w ++ evs ∧
    last evs = Some (EvTimeout T) ∧
    timeout <= duration_cast_ms (clock w' - clock w) ∧
    clock w' - clock w < (timeout + 250) * ns_per_ms + 2 * D.
Proof.
  intros Htimeout Hnever Hdelay.
  destruct (WaitForServiceStatus_run h T timeout w)
    as (b & evs & w' & Hrun & _ & Etr & Hp).
  destruct (polls_never_matching _ _ _ _ _ _ _ _ _ _ Hnever Hp) as (-> & Hlast & Hto).
  exists w', evs. do 4 (split; [done |]).
  assert (0 <= D) by (specialize (Hdelay (calls w)); lia).
  destruct (polls_clock_bound _ _ _ _ _ D _ _ _ _ _ Hdelay Hp) as [_ Hb];
    unfold ns_per_ms in *; lia.
Qed.

Lemma wait_times_out_within_bound_witness :
  (0 <= 1000 ∧ never_matches SERVICE_STOPPED running_world ∧
   (∀ k, (calls running_world <= k)%nat ->
         Z.of_N (r_delay (os running_world k)) <= 0)) ∧
  ∃ w' evs,
    WaitForServiceStatus 1%N SERVICE_STOPPED 1000 running_world = Some (false, w') ∧
    trace w' = trace running_world ++ evs ∧
    last evs = Some (EvTimeout SERVICE_STOPPED) ∧
    1000 <= duration_cast_ms (clock w' - clock running_world) ∧
    clock w' - clock running_world < (1000 + 250) * ns_per_ms + 2 * 0.
Proof.
  assert (H1 : 0 <= 1000) by lia.
  assert (H2 : never_matches SERVICE_STOPPED running_world).
  { intros k _. split; [reflexivity | discriminate]. }
  assert (H3 : ∀ k, (calls running_world <= k)%nat ->
                    Z.of_N (r_delay (os running_world k)) <= 0).
  { intros k _. reflexivity. }
  split; [done |].
  exact (wait_times_out_within_bound 1%N SERVICE_STOPPED 1000 running_world 0 H1 H2 H3).
Defined.

(** C7 (as stated) fails.  Timeout 100 ms; the first query is answered
    at once, the sleep that follows lasts 400 ms instead of 250 ms, the
    second query is answered at once: the wait returns [false] 400 ms
    after its start, later than 100 ms + 250 ms. *)
Lemma wait_exceeds_timeout_plus_interval :
  never_matches SERVICE_STOPPED overslept_world ∧
  (∃ w', WaitForServiceStatus 1%N SERVICE_STOPPED 100 overslept_world = Some (false, w') ∧
         clock w' - clock overslept_world = 400 * ns_per_ms) ∧
  ¬ returns_within_timeout_plus_interval 1%N SERVICE_STOPPED 100 overslept_world.
Proof.
  assert (Hnever : never_matches SERVICE_STOPPED overslept_world).
  { intros k _. unfold overslept_world, scripted. simpl.
    destruct k as [| [| k]]; simpl; (split; [reflexivity | discriminate]). }
  split; [exact Hnever |].
  destruct (WaitForServiceStatus 1%N SERVICE_STOPPED 100 overslept_world)
    as [[b w'] |] eqn:Hrun; [| by vm_compute in Hrun].
  assert (Hb : b = false) by (vm_compute in Hrun; congruence).
  assert (Hc : clock w' = 400000000) by (vm_compute in Hrun; by injection Hrun as _ <-).
  subst b. split; [exists w'; by rewrite Hc |].
  intros Hclaim. destruct (Hclaim Hnever) as (w'' & Hrun' & Hle).
  rewrite Hrun in Hrun'. injection Hrun' as <-.
  rewrite Hc in Hle. vm_compute in Hle. by apply Hle.
Qed.

(** C9.  The timeout is looked at only after a query that did not report
    the target.  A query that reports the target makes the wait return
    [true] whenever it was issued, also when more than the timeout has
    elapsed by then; from any loop head, whatever the start time, a
    matching answer ends the loop with [true]; and the timeout message is
    preceded only by queries that succeeded without reporting the
    target. *)
Theorem matching_poll_is_never_timed_out h T timeout w b evs :
  run_events (WaitForServiceStatus h T timeout) w = Some (b, evs) ->
  (∀ t, EvQuery h t true T ∈ evs -> b = true) ∧
  (EvTimeout T ∈ evs ->
   ∀ t ok st, EvQuery h t ok st ∈ evs -> ok = true ∧ st ≠ T) ∧
  (∀ fuel start w0,
     r_ok (os w0 (calls w0)) = true ->
     r_state (os w0 (calls w0)) = T ->
     ∃ w1, wait_loop (S fuel) h T timeout start w0 = Some (true, w1)).
Proof.
  intros Hev. apply run_events_WaitForServiceStatus in Hev as [c' Hp].
  split; [| split].
  - intros t Hin. eapply polls_true_iff; eauto.
  - by eapply polls_timeout_only_unmatched.
  - intros fuel start w0 Hok Hst. rewrite wait_loop_S. cbv zeta.
    rewrite Hok, Hst, Z.eqb_refl. eauto.
Qed.

Lemma matching_poll_is_never_timed_out_witness :
  run_events (WaitForServiceStatus 1%N SERVICE_STOPPED 100) slow_stop_world
  = Some (true, [EvQuery 1%N 0 true SERVICE_STOPPED]) ∧
  (∀ t, EvQuery 1%N t true SERVICE_STOPPED ∈ [EvQuery 1%N 0 true SERVICE_STOPPED] ->
        true = true) ∧
  (EvTimeout SERVICE_STOPPED ∈ [EvQuery 1%N 0 true SERVICE_STOPPED] ->
   ∀ t ok st, EvQuery 1%N t ok st ∈ [EvQuery 1%N 0 true SERVICE_STOPPED] ->
              ok = true ∧ st ≠ SERVICE_STOPPED) ∧
  (∀ fuel start w0,
     r_ok (os w0 (calls w0)) = true ->
     r_state (os w0 (calls w0)) = SERVICE_STOPPED ->
     ∃ w1, wait_loop (S fuel) 1%N SERVICE_STOPPED 100 start w0 = Some (true, w1)).
Proof.
  assert (Hrun : run_events (WaitForServiceStatus 1%N SERVICE_STOPPED 100) slow_stop_world
                 = Some (true, [EvQuery 1%N 0 true SERVICE_STOPPED]))
    by (vm_compute; reflexivity).
  split; [exact Hrun |].
  exact (matching_poll_is_never_timed_out 1%N SERVICE_STOPPED 100 slow_stop_world
           true [EvQuery 1%N 0 true SERVICE_STOPPED] Hrun).
Defined.

(** C10.  Whatever the timeout, a wait issues at least one status query
    before it returns.  With a timeout of 0 it issues exactly one and
    never sleeps; it returns [true] when that query succeeds and reports
    the target and [false] otherwise, on the timeout message when the
    query succeeded. *)
Theorem wait_queries_at_least_once h T w :
  (∀ timeout, ∃ b evs,
     run_events (WaitForServiceStatus h T timeout) w = Some (b, evs) ∧
     (1 <= count is_query evs)%nat) ∧
  (∃ b evs,
     run_events (WaitForServiceStatus h T 0) w = Some (b, evs) ∧
     count is_query evs = 1%nat ∧
     count is_sleep evs = 0%nat ∧
     b = (r_ok (os w (calls w)) && (r_state (os w (calls w)) =? T)) ∧
     (r_ok (os w (calls w)) = true -> r_state (os w (calls w)) ≠ T ->
      last evs = Some (EvTimeout T))).
Proof.
  split.
  - intros timeout.
    destruct (WaitForServiceStatus_run h T timeout w)
      as (b & evs & w' & _ & Hev & _ & Hp).
    exists b, evs. split; [done |].
    rewrite (polls_counts _ _ _ _ _ _ _ _ _ _ Hp). lia.
  - destruct (WaitForServiceStatus_run h T 0 w)
      as (b & evs & w' & _ & Hev & _ & Hp).
    exists b, evs. split; [done |].
    destruct (polls_single _ _ _ _ _ _ _ _ _ _ Hp) as ([Hq Hs] & Hb & Hlast).
    + lia.
    + by rewrite Z.sub_diag, duration_cast_ms_0.
    + done.
Qed.

(** ** StopServiceByName and StartServiceByName *)

Lemma released_two (w w' : World) :
  issued w' = N.succ (N.succ (issued w)) ->
  open_handles w' =
    (({[N.succ (N.succ (issued w))]} ∪ ({[N.succ (issued w)]} ∪ open_handles w))
       ∖ {[N.succ (N.succ (issued w))]}) ∖ {[N.succ (issued w)]} ->
  released w w'.
Proof.
  intros Hi Ho. split; [lia |]. intros h. rewrite Hi, Ho.
  rewrite !elem_of_difference, !elem_of_union, !elem_of_singleton.
  assert (((issued w < h <= N.succ (N.succ (issued w)))%N) <->
          h = N.succ (issued w) ∨ h = N.succ (N.succ (issued w))) as -> by lia.
  tauto.
Qed.

Lemma released_one (w w' : World) :
  issued w' = N.succ (issued w) ->
  open_handles w' = ({[N.succ (issued w)]} ∪ open_handles w) ∖ {[N.succ (issued w)]} ->
  released w w'.
Proof.
  intros Hi Ho. split; [lia |]. intros h. rewrite Hi, Ho.
  rewrite !elem_of_difference, !elem_of_union, !elem_of_singleton.
  assert (((issued w < h <= N.succ (issued w))%N) <-> h = N.succ (issued w)) as -> by lia.
  tauto.
Qed.

Lemma released_none (w w' : World) :
  issued w' = issued w -> open_handles w' = open_handles w -> released w w'.
Proof.
  intros Hi Ho. split; [lia |]. intros h. rewrite Hi, Ho.
  split; [intros ?; split; [done | lia] | tauto].
Qed.

(** [StopServiceByName] returns in every world, along one of the paths
    of [stop_path], with every handle it opened closed again. *)
Lemma StopServiceByName_path name w :
  ∃ b w' evs,
    StopServiceByName name w = Some (b, w') ∧
    trace w' = trace w ++ evs ∧
    stop_path (os w) name (calls w) (issued w) b evs (issued w') ∧
    os w' = os w ∧
    released w w'.
Proof.
  unfold StopServiceByName. step.
  destruct (r_ok (os w (calls w))) eqn:H0; step.
  2:{ eexists _, _, _. split; [reflexivity |].
      split; [simpl; rewrite <- !app_assoc; reflexivity |].
      split; [by apply stop_no_manager |]. split; [done |].
      by apply released_none. }
  destruct (r_ok (os w (S (calls w)))) eqn:H1; step.
  2:{ eexists _, _, _. split; [reflexivity |].
      split; [simpl; rewrite <- !app_assoc; reflexivity |].
      split; [by apply stop_no_service |]. split; [done |].
      by apply released_one. }
  set (wait := WaitForServiceStatus _ _ _).
  assert (Hwait : ∀ ok w0,
    os w0 = os w -> calls w0 = S (S (S (calls w))) ->
    issued w0 = N.succ (N.succ (issued w)) ->
    open_handles w0 = {[N.succ (N.succ (issued w))]} ∪ ({[N.succ (issued w)]} ∪ open_handles w) ->
    trace w0 = trace w ++
      [EvOpenSCManager SC_MANAGER_CONNECT (N.succ (issued w));
       EvOpenService (N.succ (issued w)) name (Z.lor SERVICE_STOP SERVICE_QUERY_STATUS)
         (N.succ (N.succ (issued w)));
       EvControlService (N.succ (N.succ (issued w))) SERVICE_CONTROL_STOP ok;
       EvCout "Stop request sent. Waiting for service to terminate..."] ->
    ok = r_ok (os w (S (S (calls w)))) ->
    r_ok (os w (S (S (calls w)))) = true
      ∨ r_err (os w (S (S (calls w)))) = ERROR_SERVICE_NOT_ACTIVE ->
    ∃ b w' evs,
      match
        match wait w0 with
        | Some (a, w'0) =>
            Some (a, log (EvClose (N.succ (N.succ (issued w))))
                       (release (N.succ (N.succ (issued w))) (tick 0 w'0)))
        | None => None
        end
      with
      | Some (a, w'0) =>
          Some (a, log (EvClose (N.succ (issued w)))
                     (release (N.succ (issued w)) (tick 0 w'0)))
      | None => None
      end = Some (b, w') ∧
      trace w' = trace w ++ evs ∧
      stop_path (os w) name (calls w) (issued w) b evs (issued w') ∧
      os w' = os w ∧ released w w').
  { intros ok w0 Hos Hcalls Hissued Hopen Htrace Hok Hgo. subst wait.
    destruct (WaitForServiceStatus_polls (N.succ (N.succ (issued w)))
                SERVICE_STOPPED default_timeout w0)
      as (b & w1 & evs & Hrun & Etr & Hp & Ho1 & Hi1 & Hh1).
    rewrite Hrun. eexists b, _, _. split; [reflexivity |].
    split; [simpl; rewrite Etr, Htrace, <- !app_assoc; reflexivity |].
    split.
    { simpl. rewrite Hi1, Hissued, Hok. eapply stop_waited; [done | done | done |].
      rewrite Hos, Hcalls in Hp. exact Hp. }
    split; [simpl; by rewrite Ho1 |].
    apply released_two; simpl; [by rewrite Hi1 | by rewrite Hh1, Hopen]. }
  destruct (r_ok (os w (S (S (calls w))))) eqn:H2; step.
  - apply (Hwait true); simpl; rewrite <- ?app_assoc; auto.
  - destruct (r_err (os w (S (S (calls w)))) =? ERROR_SERVICE_NOT_ACTIVE) eqn:Herr; step.
    + apply Z.eqb_eq in Herr. apply (Hwait false); simpl; rewrite <- ?app_assoc; auto.
    + apply Z.eqb_neq in Herr.
      eexists _, _, _. split; [reflexivity |].
      split; [simpl; rewrite <- !app_assoc; reflexivity |].
      split; [by apply stop_rejected |]. split; [done |].
      by apply released_two.
Qed.

(** [StartServiceByName] returns in every world, along one of the paths
    of [start_path], with every handle it opened closed again. *)
Lemma StartServiceByName_path name w :
  ∃ b w' evs,
    StartServiceByName name w = Some (b, w') ∧
    trace w' = trace w ++ evs ∧
    start_path (os w) name (calls w) (issued w) b evs (issued w') ∧
    os w' = os w ∧
    released w w'.
Proof.
  unfold StartServiceByName. step.
  destruct (r_ok (os w (calls w))) eqn:H0; step.
  2:{ eexists _, _, _. split; [reflexivity |].
      split; [simpl; rewrite <- !app_assoc; reflexivity |].
      split; [by apply start_no_manager |]. split; [done |].
      by apply released_none. }
  destruct (r_ok (os w (S (calls w)))) eqn:H1; step.
  2:{ eexists _, _, _. split; [reflexivity |].
      split; [simpl; rewrite <- !app_assoc; reflexivity |].
      split; [by apply start_no_service |]. split; [done |].
      by apply released_one. }
  destruct (r_ok (os w (S (S (calls w))))) eqn:H2; step.
  - match goal with
    | |- context [WaitForServiceStatus ?h ?T ?t ?w0] =>
        destruct (WaitForServiceStatus_polls h T t w0)
          as (b & w1 & evs & Hrun & Etr & Hp & Ho1 & Hi1 & Hh1)
    end.
    rewrite Hrun. simpl in *. eexists b, _, _. split; [reflexivity |].
    split; [simpl; rewrite Etr, <- !app_assoc; reflexivity |].
    split; [simpl; rewrite Hi1; by eapply start_waited |].
    split; [simpl; by rewrite Ho1 |].
    apply released_two; simpl; [by rewrite Hi1 | by rewrite Hh1].
  - destruct (r_err (os w (S (S (calls w)))) =? ERROR_SERVICE_ALREADY_RUNNING) eqn:Herr; step.
    + apply Z.eqb_eq in Herr.
      eexists _, _, _. split; [reflexivity |].
      split; [simpl; rewrite <- !app_assoc; reflexivity |].
      split; [by apply start_already_running |]. split; [done |].
      by apply released_two.
    + apply Z.eqb_neq in Herr.
      eexists _, _, _. split; [reflexivity |].
      split; [simpl; rewrite <- !app_assoc; reflexivity |].
      split; [by apply start_rejected |]. split; [done |].
      by apply released_two.
Qed.

(** ** Events of a path *)

Lemma count_app p evs1 evs2 :
  count p (evs1 ++ evs2) = (count p evs1 + count p evs2)%nat.
Proof. induction evs1 as [| e evs1 IH]; simpl; [done | rewrite IH; lia]. Qed.

Lemma count_0 p evs : Forall (fun e => p e = false) evs -> count p evs = 0%nat.
Proof. induction 1 as [| e evs He _ IH]; simpl; [done | by rewrite He, IH]. Qed.

Lemma wait_event_own h i i' e :
  (i < h <= i')%N -> wait_event h e ->
  own_event i i' e ∧ is_open e = false ∧ is_close e = false ∧
  is_start_request e = false ∧ is_connect e = false.
Proof.
  intros Hh He. destruct e; try done; simpl in He; subst;
    (split; [split; [done |] | done]);
    intros h' Hin; unfold event_handles in Hin;
    apply list_elem_of_filter in Hin as [_ Hin]; in_cases Hin; by subst.
Qed.

Lemma polls_own o h T timeout start n c b evs c' i i' :
  (i < h <= i')%N ->
  polls o h T timeout start n c b evs c' ->
  Forall (own_event i i') evs ∧
  count is_open evs = 0%nat ∧ count is_close evs = 0%nat ∧
  count is_start_request evs = 0%nat ∧ count is_connect evs = 0%nat.
Proof.
  intros Hh Hp. apply polls_wait_events in Hp.
  split; [| split; [| split; [| split]]]; [| apply count_0 ..];
    (eapply Forall_impl; [exact Hp |]); intros e He;
    by destruct (wait_event_own h i i' e Hh He) as (? & ? & ? & ? & ?).
Qed.

(** Handles of one explicit event. *)
Ltac own_event_tac :=
  split; [reflexivity |];
  let h := fresh "h" in let Hin := fresh "Hin" in
  intros h Hin; unfold event_handles in Hin;
  apply list_elem_of_filter in Hin as [? Hin]; in_cases Hin; subst; lia.

Ltac count_events :=
  cbn [count is_open is_close is_start_request is_resync is_query is_sleep
         is_connect];
  rewrite ?is_null_succ; cbn; repeat split; lia.

Ltac own_events :=
  repeat (apply List.Forall_cons; [own_event_tac |]);
  try apply List.Forall_nil.

Lemma stop_path_own o name n i b evs i' :
  stop_path o name n i b evs i' ->
  (i <= i')%N ∧
  Forall (own_event i i') evs ∧
  count is_open evs = count is_close evs ∧
  count is_start_request evs = 0%nat ∧
  count is_connect evs = 1%nat.
Proof.
  destruct 1 as [Hm | Hm Hs | Hm Hs Hc Herr | b evs c c' Hm Hs Hc Hp].
  - split; [lia |]. split; [own_events | count_events].
  - split; [lia |]. split; [own_events | count_events].
  - split; [lia |]. split; [own_events | count_events].
  - destruct (polls_own _ (N.succ (N.succ i)) _ _ _ _ _ _ _ _ i (N.succ (N.succ i))
                ltac:(lia) Hp)
      as (Hown & Hopen & Hclose & Hstart & Hconnect).
    split; [lia |]. split.
    + own_events. apply Forall_app. split; [done |]. own_events.
    + cbn [count is_open is_close is_start_request is_connect].
      rewrite !count_app, Hopen, Hclose, Hstart, Hconnect. count_events.
Qed.

Lemma start_path_own o name n i b evs i' :
  start_path o name n i b evs i' ->
  (i <= i')%N ∧
  Forall (own_event i i') evs ∧
  count is_open evs = count is_close evs.
Proof.
  destruct 1 as [Hm | Hm Hs | Hm Hs Hc Herr | Hm Hs Hc Herr | b evs c c' Hm Hs Hc Hp].
  - split; [lia |]. split; [own_events | count_events].
  - split; [lia |]. split; [own_events | count_events].
  - split; [lia |]. split; [own_events | count_events].
  - split; [lia |]. split; [own_events | count_events].
  - destruct (polls_own _ (N.succ (N.succ i)) _ _ _ _ _ _ _ _ i (N.succ (N.succ i))
                ltac:(lia) Hp)
      as (Hown & Hopen & Hclose & Hstart & Hconnect).
    split; [lia |]. split.
    + own_events. apply Forall_app. split; [done |]. own_events.
    + cbn [count is_open is_close is_start_request].
      rewrite !count_app, Hopen, Hclose. count_events.
Qed.

Lemma StopServiceByName_run name w :
  ∃ b evs w',
    run_events (StopServiceByName name) w = Some (b, evs) ∧
    stop_path (os w) name (calls w) (issued w) b evs (issued w').
Proof.
  destruct (StopServiceByName_path name w) as (b & w' & evs & Hrun & Etr & Hpath & _).
  exists b, evs, w'. split; [by eapply run_events_intro | done].
Qed.

Lemma StartServiceByName_run name w :
  ∃ b evs w',
    run_events (StartServiceByName name) w = Some (b, evs) ∧
    start_path (os w) name (calls w) (issued w) b evs (issued w').
Proof.
  destruct (StartServiceByName_path name w) as (b & w' & evs & Hrun & Etr & Hpath & _).
  exists b, evs, w'. split; [by eapply run_events_intro | done].
Qed.

(** C4.  Both handles are open and the stop control request is rejected.
    When the error is ERROR_SERVICE_NOT_ACTIVE, [StopServiceByName] goes
    on as after an accepted request: it waits for Stopped and returns what
    the wait returns; when the first status query reports Stopped the wait
    is that one query, without a sleep, and the result is [true].  With
    any other error it prints the error and returns [false] without a
    status query. *)
Theorem stop_request_rejected name w :
  r_ok (os w (calls w)) = true ->
  r_ok (os w (S (calls w))) = true ->
  r_ok (os w (S (S (calls w)))) = false ->
  (r_err (os w (S (S (calls w)))) = ERROR_SERVICE_NOT_ACTIVE ->
   ∃ b evs c c',
     run_events (StopServiceByName name) w =
       Some (b,
             [EvOpenSCManager SC_MANAGER_CONNECT (N.succ (issued w));
              EvOpenService (N.succ (issued w)) name
                (Z.lor SERVICE_STOP SERVICE_QUERY_STATUS) (N.succ (N.succ (issued w)));
              EvControlService (N.succ (N.succ (issued w))) SERVICE_CONTROL_STOP false;
              EvCout "Stop request sent. Waiting for service to terminate..."]
             ++ evs ++
             [EvClose (N.succ (N.succ (issued w))); EvClose (N.succ (issued w))]) ∧
     polls (os w) (N.succ (N.succ (issued w))) SERVICE_STOPPED default_timeout c
       (S (S (S (calls w)))) c b evs c' ∧
     (r_ok (os w (S (S (S (calls w))))) = true ->
      r_state (os w (S (S (S (calls w))))) = SERVICE_STOPPED ->
      b = true ∧
      evs = [EvQuery (N.succ (N.succ (issued w))) c true SERVICE_STOPPED])) ∧
  (r_err (os w (S (S (calls w)))) ≠ ERROR_SERVICE_NOT_ACTIVE ->
   run_events (StopServiceByName name) w =
     Some (false,
           [EvOpenSCManager SC_MANAGER_CONNECT (N.succ (issued w));
            EvOpenService (N.succ (issued w)) name
              (Z.lor SERVICE_STOP SERVICE_QUERY_STATUS) (N.succ (N.succ (issued w)));
            EvControlService (N.succ (N.succ (issued w))) SERVICE_CONTROL_STOP false;
            EvPrintError "ControlService" (r_err (os w (S (S (calls w)))));
            EvClose (N.succ (N.succ (issued w))); EvClose (N.succ (issued w))])).
Proof.
  intros Hm Hs Hc.
  destruct (StopServiceByName_run name w) as (b & evs & w' & Hev & Hpath).
  rewrite Hev.
  inversion Hpath as [Hm' | Hm' Hs' | Hm' Hs' Hc' Herr' | b' evs' c c' Hm' Hs' Hgo Hp];
    subst; try congruence.
  - split; [intros Herr; congruence | done].
  - destruct Hgo as [Hgo | Hgo]; [congruence |].
    split; [| intros Herr; congruence]. intros _.
    exists b, evs', c, c'. rewrite Hc. split; [done |]. split; [done |].
    intros Hq Hst.
    inversion Hp as [? ? Hq' | ? ? Hq' Hst' | ? ? Hq' Hst' Hto
                    | ? ? ? ? ? Hq' Hst' Hlt Hrest]; subst; try congruence.
    by rewrite Hst.
Qed.

Lemma stop_request_rejected_witness :
  (r_ok (os not_active_world (calls not_active_world)) = true ∧
   r_ok (os not_active_world (S (calls not_active_world))) = true ∧
   r_ok (os not_active_world (S (S (calls not_active_world)))) = false) ∧
  ∃ c,
    run_events (StopServiceByName "w32time") not_active_world =
      Some (true,
            [EvOpenSCManager SC_MANAGER_CONNECT 1%N;
             EvOpenService 1%N "w32time" (Z.lor SERVICE_STOP SERVICE_QUERY_STATUS) 2%N;
             EvControlService 2%N SERVICE_CONTROL_STOP false;
             EvCout "Stop request sent. Waiting for service to terminate...";
             EvQuery 2%N c true SERVICE_STOPPED;
             EvClose 2%N; EvClose 1%N]).
Proof.
  split; [by repeat split |].
  destruct (stop_request_rejected "w32time" not_active_world eq_refl eq_refl eq_refl)
    as [Hidle _].
  destruct (Hidle eq_refl) as (b & evs & c & c' & Hrun & _ & Hone).
  destruct (Hone eq_refl eq_refl) as [-> ->].
  exists c. exact Hrun.
Defined.

(** C5.  Both handles are open and the start request is rejected.  When
    the error is ERROR_SERVICE_ALREADY_RUNNING, [StartServiceByName]
    returns [true] at once; with any other error it prints the error and
    returns [false].  Either way it issues no status query and never
    sleeps. *)
Theorem start_request_rejected name w :
  r_ok (os w (calls w)) = true ->
  r_ok (os w (S (calls w))) = true ->
  r_ok (os w (S (S (calls w)))) = false ->
  (r_err (os w (S (S (calls w)))) = ERROR_SERVICE_ALREADY_RUNNING ->
   run_events (StartServiceByName name) w =
     Some (true,
           [EvOpenSCManager SC_MANAGER_CONNECT (N.succ (issued w));
            EvOpenService (N.succ (issued w)) name
              (Z.lor SERVICE_START SERVICE_QUERY_STATUS) (N.succ (N.succ (issued w)));
            EvStartService (N.succ (N.succ (issued w))) false;
            EvCout "Service is already running.";
            EvClose (N.succ (N.succ (issued w))); EvClose (N.succ (issued w))])) ∧
  (r_err (os w (S (S (calls w)))) ≠ ERROR_SERVICE_ALREADY_RUNNING ->
   run_events (StartServiceByName name) w =
     Some (false,
           [EvOpenSCManager SC_MANAGER_CONNECT (N.succ (issued w));
            EvOpenService (N.succ (issued w)) name
              (Z.lor SERVICE_START SERVICE_QUERY_STATUS) (N.succ (N.succ (issued w)));
            EvStartService (N.succ (N.succ (issued w))) false;
            EvPrintError "StartService" (r_err (os w (S (S (calls w)))));
            EvClose (N.succ (N.succ (issued w))); EvClose (N.succ (issued w))])) ∧
  (∃ b evs,
     run_events (StartServiceByName name) w = Some (b, evs) ∧
     count is_query evs = 0%nat ∧ count is_sleep evs = 0%nat).
Proof.
  intros Hm Hs Hc.
  destruct (StartServiceByName_run name w) as (b & evs & w' & Hev & Hpath).
  rewrite Hev.
  inversion Hpath as [Hm' | Hm' Hs' | Hm' Hs' Hc' Herr' | Hm' Hs' Hc' Herr'
                     | b' evs' c c' Hm' Hs' Hc' Hp];
    subst; try congruence.
  - split; [intros Herr; congruence |]. split; [done |]. eauto.
  - split; [done |]. split; [intros Herr; congruence |]. eauto.
Qed.

Lemma start_request_rejected_witness :
  (r_ok (os already_running_world (calls already_running_world)) = true ∧
   r_ok (os already_running_world (S (calls already_running_world))) = true ∧
   r_ok (os already_running_world (S (S (calls already_running_world)))) = false) ∧
  run_events (StartServiceByName "w32time") already_running_world =
    Some (true,
          [EvOpenSCManager SC_MANAGER_CONNECT 1%N;
           EvOpenService 1%N "w32time" (Z.lor SERVICE_START SERVICE_QUERY_STATUS) 2%N;
           EvStartService 2%N false;
           EvCout "Service is already running.";
           EvClose 2%N; EvClose 1%N]).
Proof.
  split; [by repeat split |].
  destruct (start_request_rejected "w32time" already_running_world
              eq_refl eq_refl eq_refl) as [Hrunning _].
  exact (Hrunning eq_refl).
Defined.

(** ** main *)

Lemma released_trans w1 w2 w3 :
  released w1 w2 -> released w2 w3 -> released w1 w3.
Proof.
  intros [Hi12 Ho12] [Hi23 Ho23]. split; [lia |].
  intros h. rewrite Ho23, Ho12. split.
  - intros [[Hin Hn12] Hn23]. split; [done | lia].
  - intros [Hin Hn13]. split; [split; [done | lia] | lia].
Qed.

Lemma released_same w1 w2 w1' w2' :
  issued w1' = issued w1 -> open_handles w1' = open_handles w1 ->
  issued w2' = issued w2 -> open_handles w2' = open_handles w2 ->
  released w1 w2 -> released w1' w2'.
Proof.
  intros Hi1 Ho1 Hi2 Ho2 [Hi Ho]. split; [lia |].
  intros h. rewrite Hi1, Ho1, Hi2, Ho2. apply Ho.
Qed.

(** [main] returns 0 in every world.  It runs the stop; when the stop
    returned [true] it runs the start; what follows the start is
    [after_start]. *)
Lemma main_run w :
  ∃ stopped w1 evs_stop,
    StopServiceByName service_name (log (EvCout (stop_banner service_name)) w)
      = Some (stopped, w1) ∧
    stop_path (os w) service_name (calls w) (issued w) stopped evs_stop (issued w1) ∧
    if stopped then
      ∃ started w2 evs_start w',
        StartServiceByName service_name
          (log (EvCout (start_banner service_name))
             (log (EvCout "Service successfully stopped.") w1))
          = Some (started, w2) ∧
        start_path (os w) service_name (calls w1) (issued w1) started evs_start
          (issued w2) ∧
        main w = Some (0, w') ∧
        released w w' ∧ issued w' = issued w2 ∧
        trace w' = trace w ++
          EvCout (stop_banner service_name) :: evs_stop ++
          EvCout "Service successfully stopped." ::
          EvCout (start_banner service_name) :: evs_start ++
          after_start started (r_rc (os w (calls w2)))
    else
      ∃ w',
        main w = Some (0, w') ∧
        released w w' ∧ issued w' = issued w1 ∧
        trace w' = trace w ++
          EvCout (stop_banner service_name) :: evs_stop ++
          [EvCerr "Failed to stop the service. Aborting."; EvCout "Done."].
Proof.
  unfold main. step.
  destruct (StopServiceByName_path service_name
              (log (EvCout (stop_banner service_name)) w))
    as (stopped & w1 & evs_stop & Hstop & Etr1 & Hpath1 & Hos1 & Hrel1).
  simpl in Etr1, Hpath1, Hos1.
  rewrite Hstop. exists stopped, w1, evs_stop. split; [done |]. split; [done |].
  assert (Hrel1' : released w w1) by (by eapply released_same; [.. | exact Hrel1]).
  destruct stopped; step.
  - destruct (StartServiceByName_path service_name
                (log (EvCout (start_banner service_name))
                   (log (EvCout "Service successfully stopped.") w1)))
      as (started & w2 & evs_start & Hstart & Etr2 & Hpath2 & Hos2 & Hrel2).
    simpl in Etr2, Hpath2, Hos2. rewrite Hos1 in Hpath2.
    assert (Hrel2' : released w w2).
    { eapply released_trans; [exact Hrel1' |].
      by eapply released_same; [.. | exact Hrel2]. }
    rewrite Hstart. exists started, w2, evs_start.
    destruct started; step.
    + destruct (r_rc (os w2 (calls w2)) =? 0) eqn:Hrc;
        (eexists; split; [done |]; split; [done |]; split; [reflexivity |];
         split; [by eapply released_same; [.. | exact Hrel2'] |];
         split; [done |];
         simpl; rewrite Etr2, Etr1, Hos2, Hos1, <- !app_assoc; simpl;
         rewrite Hos2, Hos1 in Hrc; by rewrite Hrc).
    + eexists. split; [done |]. split; [done |]. split; [reflexivity |].
      split; [by eapply released_same; [.. | exact Hrel2'] |].
      split; [done |].
      simpl. by rewrite Etr2, Etr1, <- !app_assoc.
  - eexists. split; [reflexivity |].
    split; [by eapply released_same; [.. | exact Hrel1'] |].
    split; [done |].
    simpl. by rewrite Etr1, <- !app_assoc.
Qed.

(** The whole sequence on a service that stops and starts as asked. *)
Example restart_and_resync :
  run_events main restart_world =
    Some (0,
          [EvCout "--- Attempting to stop the 'w32time' service... ---";
           EvOpenSCManager SC_MANAGER_CONNECT 1%N;
           EvOpenService 1%N "w32time" (Z.lor SERVICE_STOP SERVICE_QUERY_STATUS) 2%N;
           EvControlService 2%N SERVICE_CONTROL_STOP true;
           EvCout "Stop request sent. Waiting for service to terminate...";
           EvQuery 2%N 0 true SERVICE_RUNNING; EvSleep 250;
           EvQuery 2%N 250000000 true SERVICE_STOP_PENDING; EvSleep 250;
           EvQuery 2%N 500000000 true SERVICE_STOPPED;
           EvClose 2%N; EvClose 1%N;
           EvCout "Service successfully stopped.";
           EvCout "--- Attempting to start the 'w32time' service... ---";
           EvOpenSCManager SC_MANAGER_CONNECT 3%N;
           EvOpenService 3%N "w32time" (Z.lor SERVICE_START SERVICE_QUERY_STATUS) 4%N;
           EvStartService 4%N true;
           EvCout "Start request sent. Waiting for service to run...";
           EvQuery 4%N 500000000 true SERVICE_START_PENDING; EvSleep 250;
           EvQuery 4%N 750000000 true SERVICE_RUNNING;
           EvClose 4%N; EvClose 3%N;
           EvCout "Service successfully started.";
           EvCout "--- Resyncing system time... ---";
           EvSystem "w32tm /resync /nowait" 0;
           EvCout "Time resync command sent successfully.";
           EvCout "Done."]).
Proof. vm_compute. reflexivity. Qed.

Lemma count_own_resync i i' evs :
  Forall (own_event i i') evs -> count is_resync evs = 0%nat.
Proof.
  intros Hown. apply count_0. eapply Forall_impl; [exact Hown |].
  by intros e [He _].
Qed.

Lemma count_0_elem p evs e : count p evs = 0%nat -> e ∈ evs -> p e = false.
Proof.
  induction evs as [| e' evs IH]; simpl; intros Hc Hin; [by in_cases Hin |].
  apply elem_of_cons in Hin as [-> | Hin].
  - destruct (p e'); [discriminate | done].
  - apply IH; [| done]. destruct (p e'); [discriminate | done].
Qed.

Lemma count_after_start started rc :
  count is_resync (after_start started rc) = (if started then 1 else 0)%nat ∧
  count is_start_request (after_start started rc) = 0%nat.
Proof. destruct started; simpl; [by destruct (rc =? 0) | done]. Qed.

(** C2.  [main] runs the stop; only when the stop returned [true] it
    runs the start; and it runs the resync command once when the start
    returned [true] and not at all otherwise.  After a failed stop there
    is no resync, no start request, and no connection to the service
    control manager but the one the stop made. *)
Theorem resync_iff_start_succeeded w :
  ∃ evs stopped w1,
    run_events main w = Some (0, evs) ∧
    StopServiceByName service_name (log (EvCout (stop_banner service_name)) w)
      = Some (stopped, w1) ∧
    if stopped then
      ∃ started w2,
        StartServiceByName service_name
          (log (EvCout (start_banner service_name))
             (log (EvCout "Service successfully stopped.") w1))
          = Some (started, w2) ∧
        count is_resync evs = (if started then 1 else 0)%nat ∧
        ((∃ rc, EvSystem resync_command rc ∈ evs) <-> started = true)
    else
      count is_resync evs = 0%nat ∧
      count is_start_request evs = 0%nat ∧
      count is_connect evs = 1%nat.
Proof.
  destruct (main_run w) as (stopped & w1 & evs_stop & Hstop & Hpath1 & Hmain).
  destruct (stop_path_own _ _ _ _ _ _ _ Hpath1)
    as (_ & Hown1 & _ & Hreq1 & Hconn1).
  apply count_own_resync in Hown1.
  destruct stopped.
  - destruct Hmain as (started & w2 & evs_start & w' & Hstart & Hpath2 & Hmain
                       & _ & _ & Etr).
    destruct (start_path_own _ _ _ _ _ _ _ Hpath2) as (_ & Hown2 & _).
    apply count_own_resync in Hown2.
    destruct (count_after_start started (r_rc (os w (calls w2)))) as [Hresync _].
    eexists _, true, w1. split; [by eapply run_events_intro |]. split; [done |].
    exists started, w2. split; [done |].
    assert (Hcount : count is_resync
              (EvCout (stop_banner service_name) :: evs_stop ++
               EvCout "Service successfully stopped." ::
               EvCout (start_banner service_name) :: evs_start ++
               after_start started (r_rc (os w (calls w2))))
            = (if started then 1 else 0)%nat).
    { cbn [count is_resync]. rewrite count_app. cbn [count is_resync].
      rewrite count_app, Hown1, Hown2, Hresync. done. }
    split; [done |]. split.
    + intros [rc Hin]. destruct started; [done |].
      by apply (count_0_elem _ _ _ Hcount) in Hin.
    + intros ->. exists (r_rc (os w (calls w2))). simpl. set_solver.
  - destruct Hmain as (w' & Hmain & _ & _ & Etr).
    eexists _, false, w1. split; [by eapply run_events_intro |]. split; [done |].
    cbn [count is_resync is_start_request is_connect]. rewrite !count_app.
    rewrite Hown1, Hreq1, Hconn1. done.
Qed.

(** C3 (as amended).  The exit status of [main] is 0 whatever happened.
    What happened is told by the last lines written: the stop failure
    line after a failed stop, and after a stop that succeeded the lines
    of [after_start]: the start failure line, or the resync command and
    the line for a zero or a nonzero result. *)
Theorem exit_status_is_always_zero w :
  ∃ evs stopped w1,
    run_events main w = Some (0, evs) ∧
    StopServiceByName service_name (log (EvCout (stop_banner service_name)) w)
      = Some (stopped, w1) ∧
    if stopped then
      ∃ started w2 evs0,
        StartServiceByName service_name
          (log (EvCout (start_banner service_name))
             (log (EvCout "Service successfully stopped.") w1))
          = Some (started, w2) ∧
        evs = evs0 ++ after_start started (r_rc (os w (calls w2)))
    else
      ∃ evs0,
        evs = evs0 ++ [EvCerr "Failed to stop the service. Aborting.";
                       EvCout "Done."].
Proof.
  destruct (main_run w) as (stopped & w1 & evs_stop & Hstop & Hpath1 & Hmain).
  destruct stopped.
  - destruct Hmain as (started & w2 & evs_start & w' & Hstart & Hpath2 & Hmain
                       & _ & _ & Etr).
    eexists _, true, w1. split; [by eapply run_events_intro |]. split; [done |].
    exists started, w2,
      (EvCout (stop_banner service_name) :: evs_stop ++
       EvCout "Service successfully stopped." ::
       EvCout (start_banner service_name) :: evs_start).
    split; [done |]. simpl. by rewrite <- !app_assoc.
  - destruct Hmain as (w' & Hmain & _ & _ & Etr).
    eexists _, false, w1. split; [by eapply run_events_intro |]. split; [done |].
    by exists (EvCout (stop_banner service_name) :: evs_stop).
Qed.

(** C3 (as stated) fails.  The service control manager cannot be
    reached: the stop fails, nothing else is tried, and [main] returns 0
    where the specification has 1. *)
Lemma exit_status_zero_after_failed_stop :
  run_events main no_manager_world =
    Some (0, [EvCout "--- Attempting to stop the 'w32time' service... ---";
              EvOpenSCManager SC_MANAGER_CONNECT 0%N;
              EvPrintError "OpenSCManager" ERROR_ACCESS_DENIED;
              EvCerr "Failed to stop the service. Aborting.";
              EvCout "Done."]) ∧
  ¬ exit_status_names_outcome no_manager_world.
Proof.
  split; [vm_compute; reflexivity |].
  intros Hclaim.
  destruct (main no_manager_world) as [[status w'] |] eqn:Hmain;
    [| by vm_compute in Hmain].
  destruct (StopServiceByName service_name
              (log (EvCout (stop_banner service_name)) no_manager_world))
    as [[stopped w1] |] eqn:Hstop; [| by vm_compute in Hstop].
  assert (Hstatus : status = 0) by (vm_compute in Hmain; congruence).
  assert (Hstopped : stopped = false) by (vm_compute in Hstop; congruence).
  destruct (Hclaim status w' stopped w1 Hmain Hstop) as [Hone _].
  specialize (Hone Hstopped). lia.
Qed.

(** ** Handles *)

Lemma released_open_handles w w' :
  handles_ok w -> released w w' -> open_handles w' = open_handles w.
Proof.
  intros [Hopen _] [_ Hrel]. apply set_eq. intros h. rewrite Hrel.
  split; [tauto |]. intros Hin. split; [done |].
  specialize (Hopen h Hin). lia.
Qed.

Lemma released_scopes_closed w w' evs :
  handles_ok w ->
  released w w' ->
  trace w' = trace w ++ evs ->
  Forall (own_event (issued w) (issued w')) evs ->
  count is_open evs = count is_close evs ->
  scopes_closed w w' evs.
Proof.
  intros Hok Hrel Etr Hown Hcount.
  pose proof (released_open_handles w w' Hok Hrel) as Hsame.
  destruct Hok as [Hopen Htrace]. destruct Hrel as [Hle _].
  rewrite Forall_forall in Hown.
  split; [done |]. split; [| split; [done |]].
  - split.
    + intros h Hin. rewrite Hsame in Hin. specialize (Hopen h Hin). lia.
    + intros e h Hin Hh. rewrite Etr in Hin. apply elem_of_app in Hin as [Hin | Hin].
      * specialize (Htrace e h Hin Hh). lia.
      * destruct (Hown e Hin) as [_ Hrange]. specialize (Hrange h Hh). lia.
  - intros e h Hin Hh. destruct (Hown e Hin) as [_ Hrange].
    specialize (Hrange h Hh). split; [lia |].
    intros e0 Hin0 Hh0. specialize (Htrace e0 h Hin0 Hh0). lia.
Qed.

(** C8.  In a consistent world [StopServiceByName] and
    [StartServiceByName] return with their scopes closed, on every path:
    the handles open afterwards are those open before, as many handles
    were closed as opened, and the handles they used are their own: each
    was handed out during the call and is named by no earlier event, so
    the start uses no handle of the stop before it.  [main] returns with
    the handles open that were open when it began, and the events of its
    stop and of its start name no handle in common. *)
Theorem handles_released_on_every_path name w :
  handles_ok w ->
  (∃ b w' evs,
     StopServiceByName name w = Some (b, w') ∧
     trace w' = trace w ++ evs ∧ scopes_closed w w' evs) ∧
  (∃ b w' evs,
     StartServiceByName name w = Some (b, w') ∧
     trace w' = trace w ++ evs ∧ scopes_closed w w' evs) ∧
  (∃ w' stopped w1 evs_stop,
     main w = Some (0, w') ∧
     open_handles w' = open_handles w ∧
     run_events (StopServiceByName service_name)
       (log (EvCout (stop_banner service_name)) w) = Some (stopped, evs_stop) ∧
     StopServiceByName service_name (log (EvCout (stop_banner service_name)) w)
       = Some (stopped, w1) ∧
     (stopped = true ->
      ∃ started evs_start,
        run_events (StartServiceByName service_name)
          (log (EvCout (start_banner service_name))
             (log (EvCout "Service successfully stopped.") w1))
          = Some (started, evs_start) ∧
        ∀ e1 e2 h, e1 ∈ evs_stop -> e2 ∈ evs_start ->
                   h ∈ event_handles e1 -> h ∉ event_handles e2)).
Proof.
  intros Hok. split; [| split].
  - destruct (StopServiceByName_path name w)
      as (b & w' & evs & Hrun & Etr & Hpath & _ & Hrel).
    destruct (stop_path_own _ _ _ _ _ _ _ Hpath) as (_ & Hown & Hcount & _).
    exists b, w', evs. split; [done |]. split; [done |].
    by apply released_scopes_closed.
  - destruct (StartServiceByName_path name w)
      as (b & w' & evs & Hrun & Etr & Hpath & _ & Hrel).
    destruct (start_path_own _ _ _ _ _ _ _ Hpath) as (_ & Hown & Hcount).
    exists b, w', evs. split; [done |]. split; [done |].
    by apply released_scopes_closed.
  - destruct (StopServiceByName_path service_name
                (log (EvCout (stop_banner service_name)) w))
      as (stopped & w1 & evs_stop & Hstop & Etr1 & Hpath1 & Hos1 & Hrel1).
    destruct (stop_path_own _ _ _ _ _ _ _ Hpath1) as (_ & Hown1 & _).
    destruct (main_run w) as (stopped' & w1' & evs_stop' & Hstop' & _ & Hmain).
    rewrite Hstop in Hstop'. injection Hstop' as <- <-.
    destruct stopped.
    + destruct Hmain as (started & w2 & evs_start & w' & Hstart & Hpath2 & Hmain
                         & Hrel & _ & _).
      exists w', true, w1, evs_stop. split; [done |].
      split; [by apply released_open_handles |].
      split; [by eapply run_events_intro |]. split; [done |]. intros _.
      destruct (StartServiceByName_path service_name
                  (log (EvCout (start_banner service_name))
                     (log (EvCout "Service successfully stopped.") w1)))
        as (started' & w2' & evs_start' & Hstart' & Etr2 & Hpath2' & _).
      destruct (start_path_own _ _ _ _ _ _ _ Hpath2') as (_ & Hown2 & _).
      exists started', evs_start'. split; [by eapply run_events_intro |].
      intros e1 e2 h Hin1 Hin2 Hh1 Hh2.
      rewrite Forall_forall in Hown1, Hown2.
      destruct (Hown1 e1 Hin1) as [_ Hr1]. destruct (Hown2 e2 Hin2) as [_ Hr2].
      specialize (Hr1 h Hh1). specialize (Hr2 h Hh2). simpl in Hr1, Hr2. lia.
    + destruct Hmain as (w' & Hmain & Hrel & _ & _).
      exists w', false, w1, evs_stop. split; [done |].
      split; [by apply released_open_handles |].
      split; [by eapply run_events_intro |]. split; [done |]. done.
Qed.

Lemma handles_released_on_every_path_witness :
  handles_ok (boot (scripted [] done_reply)) ∧
  ∃ b w' evs,
    StopServiceByName service_name (boot (scripted [] done_reply)) = Some (b, w') ∧
    trace w' = trace (boot (scripted [] done_reply)) ++ evs ∧
    scopes_closed (boot (scripted [] done_reply)) w' evs.
Proof.
  assert (Hok : handles_ok (boot (scripted [] done_reply))).
  { split; [intros h Hin | intros e h Hin _]; simpl in Hin.
    - by apply not_elem_of_empty in Hin.
    - by apply elem_of_nil in Hin. }
  split; [exact Hok |].
  exact (proj1 (handles_released_on_every_path service_name
                  (boot (scripted [] done_reply)) Hok)).
Defined.

(** * Further properties *)

(** ** Polling: how often, how fast, and what it reports *)

(** From a loop head where [e] ms have elapsed, the loop issues at most
    one status query per 250 ms that remain, and one more. *)
Lemma polls_query_bound o h T timeout start n c b evs c' :
  polls o h T timeout start n c b evs c' ->
  start <= c ->
  Z.of_nat (count is_query evs)
  <= Z.max 0 ((timeout - duration_cast_ms (c - start) + 249) / 250) + 1.
Proof.
  induction 1 as [n c Hok | n c Hok Hst | n c Hok Hst Hto
                 | n c b evs c' Hok Hst Hlt Hrun IH]; intros Hstart.
  1-3: simpl; lia.
  set (d := Z.of_N (r_delay (o n))) in *.
  set (x := Z.of_N (r_delay (o (S n)))) in *.
  assert (0 <= d) by (subst d; lia). assert (0 <= x) by (subst x; lia).
  specialize (IH ltac:(unfold ns_per_ms; lia)).
  pose proof (duration_cast_ms_mono (c - start) (c + d - start) ltac:(lia) ltac:(lia))
    as Hm.
  pose proof (elapsed_after_sleep (c - start) (d + x) ltac:(lia) ltac:(lia)) as Hs.
  replace (c - start + 250 * ns_per_ms + (d + x))
    with (c + d + 250 * ns_per_ms + x - start) in Hs by lia.
  cbn [count is_query]. rewrite !Nat2Z.inj_add. simpl (Z.of_nat 1). simpl (Z.of_nat 0).
  revert IH Hs. generalize (duration_cast_ms (c + d + 250 * ns_per_ms + x - start)).
  revert Hm Hlt. generalize (duration_cast_ms (c + d - start)).
  generalize (duration_cast_ms (c - start)).
  intros e0 e1 He01 He1 e2 IH He2.
  Z.div_mod_to_equations; lia.
Qed.

(** The clock at return: 250 ms or more for every sleep, and when the
    wait ends on the timeout message the timeout has been reached. *)
Lemma polls_pace o h T timeout start n c b evs c' :
  polls o h T timeout start n c b evs c' ->
  start <= c ->
  c + 250 * ns_per_ms * Z.of_nat (count is_sleep evs) <= c' ∧
  (EvTimeout T ∈ evs -> timeout * ns_per_ms <= c' - start).
Proof.
  induction 1 as [n c Hok | n c Hok Hst | n c Hok Hst Hto
                 | n c b evs c' Hok Hst Hlt Hrun IH]; intros Hstart.
  - split; [simpl; lia |]. intros Hin. in_cases Hin.
  - split; [simpl; lia |]. intros Hin. in_cases Hin.
  - split; [simpl; lia |]. intros _.
    destruct (Z.lt_ge_cases (c + Z.of_N (r_delay (o n)) - start) (timeout * ns_per_ms))
      as [Hlt | Hge]; [| done].
    apply duration_cast_ms_lt in Hlt; lia.
  - destruct IH as [Hpace Hto]; [unfold ns_per_ms; lia |]. split.
    + cbn [count is_sleep]. rewrite !Nat2Z.inj_add. simpl (Z.of_nat 1). simpl (Z.of_nat 0).
      unfold ns_per_ms in *. lia.
    + intros Hin. in_cases Hin. by apply Hto.
Qed.

(** One diagnostic when the result is [false], none when it is [true]. *)
Lemma polls_diagnostic o h T timeout start n c b evs c' :
  polls o h T timeout start n c b evs c' ->
  count is_diagnostic evs = (if b then 0 else 1)%nat ∧
  count is_stop_request evs = 0%nat.
Proof. induction 1; simpl; done. Qed.

(** An error code printed by the loop is the code of a query that failed. *)
Lemma polls_error_code o h T timeout start n c b evs c' f code :
  polls o h T timeout start n c b evs c' ->
  EvPrintError f code ∈ evs ->
  ∃ k, (n <= k)%nat ∧ r_ok (o k) = false ∧ r_err (o k) = code.
Proof.
  induction 1 as [n c Hok | n c Hok Hst | n c Hok Hst Hto
                 | n c b evs c' Hok Hst Hlt Hrun IH]; intros Hin; in_cases Hin.
  - injection Hin as -> ->. by exists n.
  - destruct (IH Hin) as (k & Hk & Hfail & Hcode). exists k. split; [lia | done].
Qed.

(** A query the loop made on any handle is a query on its own handle. *)
Lemma polls_observed o h T timeout start n c b evs c' :
  polls o h T timeout start n c b evs c' ->
  b = true <-> observed T evs.
Proof.
  intros Hp. rewrite (polls_true_iff _ _ _ _ _ _ _ _ _ _ Hp). unfold observed.
  split; [intros [t Hin]; by exists h, t |].
  intros (h' & t & Hin). exists t.
  pose proof (polls_wait_events _ _ _ _ _ _ _ _ _ _ Hp) as Hev.
  rewrite Forall_forall in Hev. specialize (Hev _ Hin). simpl in Hev. by subst h'.
Qed.


(** X2.  A wait never polls faster than every 250 ms and never times
    out early: it returns no sooner than 250 ms times the number of its
    sleeps after its start, and when it ends on the timeout message the
    whole timeout has elapsed. *)
Theorem wait_is_paced h T timeout w :
  ∃ b w' evs,
    WaitForServiceStatus h T timeout w = Some (b, w') ∧
    trace w' = trace w ++ evs ∧
    250 * ns_per_ms * Z.of_nat (count is_sleep evs) <= clock w' - clock w ∧
    (EvTimeout T ∈ evs -> timeout * ns_per_ms <= clock w' - clock w).
Proof.
  destruct (WaitForServiceStatus_run h T timeout w)
    as (b & evs & w' & Hrun & _ & Etr & Hp).
  exists b, w', evs. split; [done |]. split; [done |].
  destruct (polls_pace _ _ _ _ _ _ _ _ _ _ Hp (Z.le_refl _)) as [Hpace Hto].
  split; [lia | done].
Qed.

(** X3.  A wait that fails says why, once, and a wait that succeeds
    prints nothing: its events hold exactly one diagnostic (the query
    error or the timeout message) when it returns [false], as its last
    event, and none when it returns [true]. *)
Theorem wait_reports_its_failure h T timeout w :
  ∃ b evs,
    run_events (WaitForServiceStatus h T timeout) w = Some (b, evs) ∧
    count is_diagnostic evs = (if b then 0 else 1)%nat ∧
    (b = false -> ∃ e, last evs = Some e ∧ is_diagnostic e = true).
Proof.
  destruct (WaitForServiceStatus_run h T timeout w)
    as (b & evs & w' & _ & Hev & _ & Hp).
  exists b, evs. split; [done |].
  split; [by destruct (polls_diagnostic _ _ _ _ _ _ _ _ _ _ Hp) |].
  clear Hev. induction Hp as [n c Hok | n c Hok Hst | n c Hok Hst Hto
                             | n c b evs c' Hok Hst Hlt Hrun IH]; intros Hb.
  - by eexists.
  - done.
  - by eexists.
  - destruct (IH Hb) as (e & Hlast & He). exists e. split; [| done].
    destruct evs as [| e' evs]; [discriminate |]. by rewrite !last_cons_cons.
Qed.

(** ** The paths of a stop and of a start, looked at again *)

Ltac in_app H :=
  repeat (progress (rewrite ?elem_of_cons, ?elem_of_app, ?elem_of_nil in H));
  repeat match type of H with _ ∨ _ => destruct H as [H | H] end;
  try discriminate H; try contradiction.

Ltac count_more :=
  cbn [count is_diagnostic is_stop_request is_start_request is_query is_sleep
         is_connect is_resync];
  rewrite ?count_app;
  cbn [count is_diagnostic is_stop_request is_start_request is_query is_sleep
         is_connect is_resync].

Lemma wait_events_only h evs e :
  Forall (wait_event h) evs -> e ∈ evs -> wait_event h e.
Proof. rewrite Forall_forall. auto. Qed.

Lemma wait_events_discipline h evs :
  Forall (wait_event h) evs ->
  ∀ open, h ∈ open -> handle_discipline open evs ∧ handles_after open evs = open.
Proof.
  induction 1 as [| e evs He _ IH]; intros open Hin; [done |].
  destruct e; try done; simpl in He; subst; simpl;
    destruct (IH open Hin) as [Hd Ha]; auto.
Qed.

Lemma handle_discipline_app open evs1 evs2 :
  handle_discipline open (evs1 ++ evs2) <->
  handle_discipline open evs1 ∧ handle_discipline (handles_after open evs1) evs2.
Proof.
  revert open. induction evs1 as [| e evs1 IH]; intros open; simpl; [tauto |].
  rewrite IH. unfold handles_after. simpl. tauto.
Qed.

Lemma handles_after_app open evs1 evs2 :
  handles_after open (evs1 ++ evs2) = handles_after (handles_after open evs1) evs2.
Proof. unfold handles_after. apply foldl_app. Qed.

(** What a stop prints, asks and observes, on each of its paths. *)
Lemma stop_path_report o name n i b evs i' :
  stop_path o name n i b evs i' ->
  count is_diagnostic evs = (if b then 0 else 1)%nat ∧
  (count is_stop_request evs <= 1)%nat ∧
  (count is_query evs <= 121)%nat ∧
  (b = true <-> observed SERVICE_STOPPED evs) ∧
  (∀ f code, EvPrintError f code ∈ evs ->
     ∃ k, (n <= k)%nat ∧ r_ok (o k) = false ∧ r_err (o k) = code).
Proof.
  destruct 1 as [Hm | Hm Hs | Hm Hs Hc Herr | b evs c c' Hm Hs Hc Hp].
  - split; [done |]. split; [simpl; lia |]. split; [simpl; lia |]. split.
    + split; [done |]. intros (h & t & Hin). in_app Hin.
    + intros f code Hin. in_app Hin. injection Hin as -> ->. by exists n.
  - split; [done |]. split; [simpl; lia |]. split; [simpl; lia |]. split.
    + split; [done |]. intros (h & t & Hin). in_app Hin.
    + intros f code Hin. in_app Hin. injection Hin as -> ->.
      exists (S n). split; [lia | done].
  - split; [done |]. split; [simpl; lia |]. split; [simpl; lia |]. split.
    + split; [done |]. intros (h & t & Hin). in_app Hin.
    + intros f code Hin. in_app Hin. injection Hin as -> ->.
      exists (S (S n)). split; [lia | done].
  - destruct (polls_diagnostic _ _ _ _ _ _ _ _ _ _ Hp) as [Hdiag Hreq].
    pose proof (polls_query_bound _ _ _ _ _ _ _ _ _ _ Hp (Z.le_refl _)) as Hq.
    rewrite Z.sub_diag, duration_cast_ms_0, Z.sub_0_r in Hq.
    assert (E : Z.max 0 ((default_timeout + 249) / 250) + 1 = 121) by reflexivity.
    rewrite E in Hq.
    split; [count_more; rewrite Hdiag; simpl; lia |].
    split; [count_more; rewrite Hreq; simpl; lia |].
    split; [count_more; simpl; lia |]. split.
    + rewrite (polls_observed _ _ _ _ _ _ _ _ _ _ Hp). unfold observed.
      split; intros (h & t & Hin); exists h, t.
      * rewrite !elem_of_cons, elem_of_app. auto 10.
      * by in_app Hin.
    + intros f code Hin. in_app Hin.
      destruct (polls_error_code _ _ _ _ _ _ _ _ _ _ _ _ Hp Hin) as (k & Hk & Hfail & Hcode).
      exists k. split; [lia | done].
Qed.

(** What a start prints, asks and observes, on each of its paths. *)
Lemma start_path_report o name n i b evs i' :
  start_path o name n i b evs i' ->
  count is_diagnostic evs = (if b then 0 else 1)%nat ∧
  (count is_start_request evs <= 1)%nat ∧
  count is_stop_request evs = 0%nat ∧
  (count is_query evs <= 121)%nat ∧
  (b = true <->
   observed SERVICE_RUNNING evs ∨ EvCout "Service is already running." ∈ evs) ∧
  (∀ f code, EvPrintError f code ∈ evs ->
     ∃ k, (n <= k)%nat ∧ r_ok (o k) = false ∧ r_err (o k) = code).
Proof.
  destruct 1 as [Hm | Hm Hs | Hm Hs Hc Herr | Hm Hs Hc Herr | b evs c c' Hm Hs Hc Hp].
  - split; [done |]. split; [simpl; lia |]. split; [done |]. split; [simpl; lia |]. split.
    + split; [done |]. intros [(h & t & Hin) | Hin]; in_app Hin.
    + intros f code Hin. in_app Hin. injection Hin as -> ->. by exists n.
  - split; [done |]. split; [simpl; lia |]. split; [done |]. split; [simpl; lia |]. split.
    + split; [done |]. intros [(h & t & Hin) | Hin]; in_app Hin.
    + intros f code Hin. in_app Hin. injection Hin as -> ->.
      exists (S n). split; [lia | done].
  - split; [done |]. split; [simpl; lia |]. split; [done |]. split; [simpl; lia |]. split.
    + split; [done |]. intros [(h & t & Hin) | Hin]; in_app Hin.
    + intros f code Hin. in_app Hin. injection Hin as -> ->.
      exists (S (S n)). split; [lia | done].
  - split; [done |]. split; [simpl; lia |]. split; [done |]. split; [simpl; lia |]. split.
    + split; [| done]. intros _. right. rewrite !elem_of_cons. auto 10.
    + intros f code Hin. in_app Hin.
  - destruct (polls_diagnostic _ _ _ _ _ _ _ _ _ _ Hp) as [Hdiag Hreq].
    destruct (polls_own _ (N.succ (N.succ i)) _ _ _ _ _ _ _ _ i (N.succ (N.succ i))
                ltac:(lia) Hp) as (_ & _ & _ & Hstart & _).
    pose proof (polls_wait_events _ _ _ _ _ _ _ _ _ _ Hp) as Hev.
    pose proof (polls_query_bound _ _ _ _ _ _ _ _ _ _ Hp (Z.le_refl _)) as Hq.
    rewrite Z.sub_diag, duration_cast_ms_0, Z.sub_0_r in Hq.
    assert (E : Z.max 0 ((default_timeout + 249) / 250) + 1 = 121) by reflexivity.
    rewrite E in Hq.
    split; [count_more; rewrite Hdiag; simpl; lia |].
    split; [count_more; rewrite Hstart; simpl; lia |].
    split; [count_more; rewrite Hreq; simpl; lia |].
    split; [count_more; simpl; lia |]. split.
    + rewrite (polls_observed _ _ _ _ _ _ _ _ _ _ Hp). unfold observed.
      split.
      * intros (h & t & Hin). left. exists h, t.
        rewrite !elem_of_cons, elem_of_app. auto 10.
      * intros [(h & t & Hin) | Hin]; in_app Hin; [by exists h, t |].
        by apply (wait_events_only _ _ _ Hev) in Hin.
    + intros f code Hin. in_app Hin.
      destruct (polls_error_code _ _ _ _ _ _ _ _ _ _ _ _ Hp Hin) as (k & Hk & Hfail & Hcode).
      exists k. split; [lia | done].
Qed.

Ltac discipline_tac :=
  cbn [handle_discipline uses_open_handle handles_after_event];
  rewrite ?is_null_succ;
  cbn [handle_discipline uses_open_handle handles_after_event is_null N.eqb].

Lemma closes_discipline (i : N) (open : gset SC_HANDLE) :
  handle_discipline ({[N.succ (N.succ i)]} ∪ ({[N.succ i]} ∪ open))
    [EvClose (N.succ (N.succ i)); EvClose (N.succ i)].
Proof.
  discipline_tac. split; [set_solver |]. split; [| done].
  apply elem_of_difference. split; [set_solver |].
  rewrite elem_of_singleton. lia.
Qed.

(** On every path a stop gives each call a handle that is open at that
    moment, whatever handles were open before. *)
Lemma stop_path_discipline o name n i b evs i' :
  stop_path o name n i b evs i' -> ∀ open, handle_discipline open evs.
Proof.
  destruct 1 as [Hm | Hm Hs | Hm Hs Hc Herr | b evs c c' Hm Hs Hc Hp]; intros open;
    try clear Hc.
  - by discipline_tac.
  - discipline_tac. split; [done |]. split; [set_solver |]. split; [done |].
    split; [set_solver | done].
  - discipline_tac. split; [done |]. split; [set_solver |]. split; [set_solver |].
    split; [done |]. apply closes_discipline.
  - discipline_tac. split; [done |]. split; [set_solver |]. split; [set_solver |].
    split; [done |]. apply handle_discipline_app.
    destruct (wait_events_discipline _ _ (polls_wait_events _ _ _ _ _ _ _ _ _ _ Hp)
                ({[N.succ (N.succ i)]} ∪ ({[N.succ i]} ∪ open)) ltac:(set_solver))
      as [Hd Ha].
    split; [done |].
    exact (eq_ind_r (fun s => handle_discipline s _) (closes_discipline i open) Ha).
Qed.

Lemma start_path_discipline o name n i b evs i' :
  start_path o name n i b evs i' -> ∀ open, handle_discipline open evs.
Proof.
  destruct 1 as [Hm | Hm Hs | Hm Hs Hc Herr | Hm Hs Hc Herr | b evs c c' Hm Hs Hc Hp];
    intros open.
  - by discipline_tac.
  - discipline_tac. split; [done |]. split; [set_solver |]. split; [done |].
    split; [set_solver | done].
  - discipline_tac. split; [done |]. split; [set_solver |]. split; [set_solver |].
    split; [done |]. apply closes_discipline.
  - discipline_tac. split; [done |]. split; [set_solver |]. split; [set_solver |].
    split; [done |]. apply closes_discipline.
  - discipline_tac. split; [done |]. split; [set_solver |]. split; [set_solver |].
    split; [done |]. apply handle_discipline_app.
    destruct (wait_events_discipline _ _ (polls_wait_events _ _ _ _ _ _ _ _ _ _ Hp)
                ({[N.succ (N.succ i)]} ∪ ({[N.succ i]} ∪ open)) ltac:(set_solver))
      as [Hd Ha].
    split; [done |].
    exact (eq_ind_r (fun s => handle_discipline s _) (closes_discipline i open) Ha).
Qed.

(** The rights a stop and a start ask for when they open the service and
    the manager, on every path. *)
Lemma stop_path_access o name n i b evs i' :
  stop_path o name n i b evs i' ->
  (∀ access h, EvOpenSCManager access h ∈ evs -> access = SC_MANAGER_CONNECT) ∧
  (∀ scm nm access h, EvOpenService scm nm access h ∈ evs ->
     nm = name ∧ access = Z.lor SERVICE_STOP SERVICE_QUERY_STATUS).
Proof.
  destruct 1 as [Hm | Hm Hs | Hm Hs Hc Herr | b evs c c' Hm Hs Hc Hp];
    (split; [intros access h Hin | intros scm nm access h Hin]); in_app Hin;
    try (by injection Hin as -> ->); try (by injection Hin as -> -> -> ->);
    by apply (wait_events_only _ _ _ (polls_wait_events _ _ _ _ _ _ _ _ _ _ Hp)) in Hin.
Qed.

Lemma start_path_access o name n i b evs i' :
  start_path o name n i b evs i' ->
  (∀ access h, EvOpenSCManager access h ∈ evs -> access = SC_MANAGER_CONNECT) ∧
  (∀ scm nm access h, EvOpenService scm nm access h ∈ evs ->
     nm = name ∧ access = Z.lor SERVICE_START SERVICE_QUERY_STATUS).
Proof.
  destruct 1 as [Hm | Hm Hs | Hm Hs Hc Herr | Hm Hs Hc Herr | b evs c c' Hm Hs Hc Hp];
    (split; [intros access h Hin | intros scm nm access h Hin]); in_app Hin;
    try (by injection Hin as -> ->); try (by injection Hin as -> -> -> ->);
    by apply (wait_events_only _ _ _ (polls_wait_events _ _ _ _ _ _ _ _ _ _ Hp)) in Hin.
Qed.

(** ** StopServiceByName and StartServiceByName, further *)

(** X4.  A stop or a start that returns [false] prints exactly one
    diagnostic (the error of the call that failed, or the timeout of its
    wait), and one that returns [true] prints none. *)
Theorem stop_and_start_report_failure name w :
  (∃ b evs,
     run_events (StopServiceByName name) w = Some (b, evs) ∧
     count is_diagnostic evs = (if b then 0 else 1)%nat) ∧
  (∃ b evs,
     run_events (StartServiceByName name) w = Some (b, evs) ∧
     count is_diagnostic evs = (if b then 0 else 1)%nat).
Proof.
  split.
  - destruct (StopServiceByName_run name w) as (b & evs & w' & Hev & Hpath).
    exists b, evs. split; [done |]. by destruct (stop_path_report _ _ _ _ _ _ _ Hpath).
  - destruct (StartServiceByName_run name w) as (b & evs & w' & Hev & Hpath).
    exists b, evs. split; [done |]. by destruct (start_path_report _ _ _ _ _ _ _ Hpath).
Qed.

(** X5.  An error code a stop or a start prints is the code the
    operating system gave for a call that failed during that stop or
    start: the last-error code left by anything before it is never
    printed. *)
Theorem printed_error_is_of_a_failed_call name w :
  (∃ b evs,
     run_events (StopServiceByName name) w = Some (b, evs) ∧
     ∀ f code, EvPrintError f code ∈ evs ->
       ∃ k, (calls w <= k)%nat ∧ r_ok (os w k) = false ∧ r_err (os w k) = code) ∧
  (∃ b evs,
     run_events (StartServiceByName name) w = Some (b, evs) ∧
     ∀ f code, EvPrintError f code ∈ evs ->
       ∃ k, (calls w <= k)%nat ∧ r_ok (os w k) = false ∧ r_err (os w k) = code).
Proof.
  split.
  - destruct (StopServiceByName_run name w) as (b & evs & w' & Hev & Hpath).
    exists b, evs. split; [done |].
    by destruct (stop_path_report _ _ _ _ _ _ _ Hpath) as (_ & _ & _ & _ & ?).
  - destruct (StartServiceByName_run name w) as (b & evs & w' & Hev & Hpath).
    exists b, evs. split; [done |].
    by destruct (start_path_report _ _ _ _ _ _ _ Hpath) as (_ & _ & _ & _ & _ & ?).
Qed.

(** X6.  When the service control manager cannot be reached, a stop and
    a start each print the error and return [false] after that one call:
    no service is opened, no request is sent, no handle is closed. *)
Theorem manager_unreachable name w :
  r_ok (os w (calls w)) = false ->
  run_events (StopServiceByName name) w =
    Some (false, [EvOpenSCManager SC_MANAGER_CONNECT 0%N;
                  EvPrintError "OpenSCManager" (r_err (os w (calls w)))]) ∧
  run_events (StartServiceByName name) w =
    Some (false, [EvOpenSCManager SC_MANAGER_CONNECT 0%N;
                  EvPrintError "OpenSCManager" (r_err (os w (calls w)))]).
Proof.
  intros Hm. split.
  - destruct (StopServiceByName_run name w) as (b & evs & w' & Hev & Hpath).
    rewrite Hev. inversion Hpath; subst; congruence.
  - destruct (StartServiceByName_run name w) as (b & evs & w' & Hev & Hpath).
    rewrite Hev. inversion Hpath; subst; congruence.
Qed.

Lemma manager_unreachable_witness :
  r_ok (os no_manager_world (calls no_manager_world)) = false ∧
  run_events (StopServiceByName service_name) no_manager_world =
    Some (false, [EvOpenSCManager SC_MANAGER_CONNECT 0%N;
                  EvPrintError "OpenSCManager" ERROR_ACCESS_DENIED]) ∧
  run_events (StartServiceByName service_name) no_manager_world =
    Some (false, [EvOpenSCManager SC_MANAGER_CONNECT 0%N;
                  EvPrintError "OpenSCManager" ERROR_ACCESS_DENIED]).
Proof.
  split; [reflexivity |].
  exact (manager_unreachable service_name no_manager_world eq_refl).
Defined.

(** X7.  When the manager is reached but the service cannot be opened, a
    stop and a start each print the error, close the manager handle and
    return [false]: no request is sent to the service and its status is
    never queried. *)
Theorem service_unavailable name w :
  r_ok (os w (calls w)) = true ->
  r_ok (os w (S (calls w))) = false ->
  run_events (StopServiceByName name) w =
    Some (false,
          [EvOpenSCManager SC_MANAGER_CONNECT (N.succ (issued w));
           EvOpenService (N.succ (issued w)) name
             (Z.lor SERVICE_STOP SERVICE_QUERY_STATUS) 0%N;
           EvPrintError "OpenService" (r_err (os w (S (calls w))));
           EvClose (N.succ (issued w))]) ∧
  run_events (StartServiceByName name) w =
    Some (false,
          [EvOpenSCManager SC_MANAGER_CONNECT (N.succ (issued w));
           EvOpenService (N.succ (issued w)) name
             (Z.lor SERVICE_START SERVICE_QUERY_STATUS) 0%N;
           EvPrintError "OpenService" (r_err (os w (S (calls w))));
           EvClose (N.succ (issued w))]).
Proof.
  intros Hm Hs. split.
  - destruct (StopServiceByName_run name w) as (b & evs & w' & Hev & Hpath).
    rewrite Hev. inversion Hpath; subst; congruence.
  - destruct (StartServiceByName_run name w) as (b & evs & w' & Hev & Hpath).
    rewrite Hev. inversion Hpath; subst; congruence.
Qed.

Lemma service_unavailable_witness :
  (r_ok (os no_service_world (calls no_service_world)) = true ∧
   r_ok (os no_service_world (S (calls no_service_world))) = false) ∧
  run_events (StopServiceByName service_name) no_service_world =
    Some (false,
          [EvOpenSCManager SC_MANAGER_CONNECT 1%N;
           EvOpenService 1%N service_name
             (Z.lor SERVICE_STOP SERVICE_QUERY_STATUS) 0%N;
           EvPrintError "OpenService" ERROR_ACCESS_DENIED;
           EvClose 1%N]) ∧
  run_events (StartServiceByName service_name) no_service_world =
    Some (false,
          [EvOpenSCManager SC_MANAGER_CONNECT 1%N;
           EvOpenService 1%N service_name
             (Z.lor SERVICE_START SERVICE_QUERY_STATUS) 0%N;
           EvPrintError "OpenService" ERROR_ACCESS_DENIED;
           EvClose 1%N]).
Proof.
  split; [by split |].
  exact (service_unavailable service_name no_service_world eq_refl eq_refl).
Defined.


(** X10.  A stop and a start connect to the manager with
    SC_MANAGER_CONNECT only and open no service but the named one, with
    the rights they use and not the other's: a stop asks for stop and
    query-status and never sends a start request, a start asks for start
    and query-status and never sends a control request. *)
Theorem least_privilege name w :
  (∃ b evs,
     run_events (StopServiceByName name) w = Some (b, evs) ∧
     (∀ access h, EvOpenSCManager access h ∈ evs -> access = SC_MANAGER_CONNECT) ∧
     (∀ scm nm access h, EvOpenService scm nm access h ∈ evs ->
        nm = name ∧
        Z.land access SERVICE_STOP = SERVICE_STOP ∧
        Z.land access SERVICE_QUERY_STATUS = SERVICE_QUERY_STATUS ∧
        Z.land access SERVICE_START = 0) ∧
     count is_start_request evs = 0%nat) ∧
  (∃ b evs,
     run_events (StartServiceByName name) w = Some (b, evs) ∧
     (∀ access h, EvOpenSCManager access h ∈ evs -> access = SC_MANAGER_CONNECT) ∧
     (∀ scm nm access h, EvOpenService scm nm access h ∈ evs ->
        nm = name ∧
        Z.land access SERVICE_START = SERVICE_START ∧
        Z.land access SERVICE_QUERY_STATUS = SERVICE_QUERY_STATUS ∧
        Z.land access SERVICE_STOP = 0) ∧
     count is_stop_request evs = 0%nat).
Proof.
  split.
  - destruct (StopServiceByName_run name w) as (b & evs & w' & Hev & Hpath).
    exists b, evs. split; [done |].
    destruct (stop_path_access _ _ _ _ _ _ _ Hpath) as [Hscm Hsvc].
    split; [done |]. split.
    + intros scm nm access h Hin. by destruct (Hsvc _ _ _ _ Hin) as [-> ->].
    + by destruct (stop_path_own _ _ _ _ _ _ _ Hpath) as (_ & _ & _ & ? & _).
  - destruct (StartServiceByName_run name w) as (b & evs & w' & Hev & Hpath).
    exists b, evs. split; [done |].
    destruct (start_path_access _ _ _ _ _ _ _ Hpath) as [Hscm Hsvc].
    split; [done |]. split.
    + intros scm nm access h Hin. by destruct (Hsvc _ _ _ _ Hin) as [-> ->].
    + by destruct (start_path_report _ _ _ _ _ _ _ Hpath) as (_ & _ & ? & _).
Qed.

(** ** main, further *)

(** The events of [main], by the paths of its stop and of its start. *)
Lemma main_events w :
  ∃ evs stopped evs_stop i1,
    run_events main w = Some (0, evs) ∧
    stop_path (os w) service_name (calls w) (issued w) stopped evs_stop i1 ∧
    if stopped then
      ∃ started evs_start n1 i2 rc,
        start_path (os w) service_name n1 i1 started evs_start i2 ∧
        evs = (EvCout (stop_banner service_name) :: evs_stop) ++
              (EvCout "Service successfully stopped." ::
               EvCout (start_banner service_name) :: evs_start) ++
              after_start started rc
    else
      evs = (EvCout (stop_banner service_name) :: evs_stop) ++
            [EvCerr "Failed to stop the service. Aborting."; EvCout "Done."].
Proof.
  destruct (main_run w) as (stopped & w1 & evs_stop & Hstop & Hpath1 & Hmain).
  destruct stopped.
  - destruct Hmain as (started & w2 & evs_start & w' & Hstart & Hpath2 & Hmain
                       & _ & _ & Etr).
    eexists _, true, evs_stop, _. split; [by eapply run_events_intro |].
    split; [done |]. eexists started, evs_start, _, _, _. split; [done |].
    reflexivity.
  - destruct Hmain as (w' & Hmain & _ & _ & Etr).
    eexists _, false, evs_stop, _. split; [by eapply run_events_intro |].
    split; [done |]. done.
Qed.

Lemma after_start_quiet started rc :
  (∀ open, handle_discipline open (after_start started rc)) ∧
  count is_stop_request (after_start started rc) = 0%nat ∧
  count is_start_request (after_start started rc) = 0%nat ∧
  count is_connect (after_start started rc) = 0%nat ∧
  count is_query (after_start started rc) = 0%nat ∧
  count is_resync (after_start started rc) = (if started then 1 else 0)%nat.
Proof. destruct started; simpl; [by destruct (rc =? 0) | done]. Qed.

Lemma start_path_connect o name n i b evs i' :
  start_path o name n i b evs i' ->
  count is_connect evs = 1%nat ∧ count is_resync evs = 0%nat.
Proof.
  intros Hpath.
  destruct (start_path_own _ _ _ _ _ _ _ Hpath) as (_ & Hown & _).
  split; [| by eapply count_own_resync].
  destruct Hpath as [Hm | Hm Hs | Hm Hs Hc Herr | Hm Hs Hc Herr
                    | b evs c c' Hm Hs Hc Hp]; try done.
  destruct (polls_own _ (N.succ (N.succ i)) _ _ _ _ _ _ _ _ i (N.succ (N.succ i))
              ltac:(lia) Hp) as (_ & _ & _ & _ & Hconnect).
  count_more. rewrite Hconnect. done.
Qed.

(** X9.  A stop, a start and the whole of [main] give every call that
    takes a handle a handle that is open at that moment, and close only
    handles that are open: no handle is used before it is opened, used
    after it is closed, or closed twice. *)
Theorem handles_are_used_while_open name w :
  (∃ b evs,
     run_events (StopServiceByName name) w = Some (b, evs) ∧
     handle_discipline (open_handles w) evs) ∧
  (∃ b evs,
     run_events (StartServiceByName name) w = Some (b, evs) ∧
     handle_discipline (open_handles w) evs) ∧
  (∃ evs,
     run_events main w = Some (0, evs) ∧
     handle_discipline (open_handles w) evs).
Proof.
  split; [| split].
  - destruct (StopServiceByName_run name w) as (b & evs & w' & Hev & Hpath).
    exists b, evs. split; [done |]. by eapply stop_path_discipline.
  - destruct (StartServiceByName_run name w) as (b & evs & w' & Hev & Hpath).
    exists b, evs. split; [done |]. by eapply start_path_discipline.
  - destruct (main_events w) as (evs & stopped & evs_stop & i1 & Hev & Hpath1 & Hevs).
    exists evs. split; [done |].
    pose proof (stop_path_discipline _ _ _ _ _ _ _ Hpath1) as Hd1.
    destruct stopped.
    + destruct Hevs as (started & evs_start & n1 & i2 & rc & Hpath2 & ->).
      pose proof (start_path_discipline _ _ _ _ _ _ _ Hpath2) as Hd2.
      apply handle_discipline_app. split; [split; [done | apply Hd1] |].
      apply handle_discipline_app. split; [split; [done |]; split; [done | apply Hd2] |].
      apply after_start_quiet.
    + subst evs. apply handle_discipline_app. split; [split; [done | apply Hd1] |].
      done.
Qed.

(** X11.  [main] never retries a phase and polls a bounded number of
    times: at most one stop request, one start request and one resync
    command, at most two connections to the service control manager, and
    at most 242 status queries, whatever the operating system answers. *)
Theorem main_never_retries w :
  ∃ evs,
    run_events main w = Some (0, evs) ∧
    (count is_stop_request evs <= 1)%nat ∧
    (count is_start_request evs <= 1)%nat ∧
    (count is_resync evs <= 1)%nat ∧
    (count is_connect evs <= 2)%nat ∧
    (count is_query evs <= 242)%nat.
Proof.
  destruct (main_events w) as (evs & stopped & evs_stop & i1 & Hev & Hpath1 & Hevs).
  exists evs. split; [done |].
  destruct (stop_path_report _ _ _ _ _ _ _ Hpath1) as (_ & Hreq1 & Hq1 & _).
  destruct (stop_path_own _ _ _ _ _ _ _ Hpath1) as (_ & Hown1 & _ & Hst1 & Hconn1).
  apply count_own_resync in Hown1.
  destruct stopped.
  - destruct Hevs as (started & evs_start & n1 & i2 & rc & Hpath2 & ->).
    destruct (start_path_report _ _ _ _ _ _ _ Hpath2) as (_ & Hst2 & Hreq2 & Hq2 & _).
    destruct (start_path_connect _ _ _ _ _ _ _ Hpath2) as [Hconn2 Hres2].
    destruct (after_start_quiet started rc) as (_ & Ha1 & Ha2 & Ha3 & Ha4 & Ha5).
    rewrite !count_app. count_more.
    rewrite Ha1, Ha2, Ha3, Ha4, Ha5, Hown1, Hst1, Hconn1, Hreq2, Hconn2, Hres2.
    destruct started; repeat split; lia.
  - subst evs. rewrite !count_app. count_more.
    rewrite Hown1, Hst1, Hconn1. repeat split; lia.
Qed.


(** X13.  When the stop request is accepted and every call succeeds but
    no status query ever reports Stopped, [main] polls until the default
    timeout has elapsed, prints the timeout and the stop failure, closes
    both handles and returns: it sends no start request and runs no
    resync command, and 30 s or more have passed. *)
Theorem stop_that_never_completes w :
  never_stops w ->
  ∃ w' evs_wait,
    main w = Some (0, w') ∧
    trace w' = trace w ++
      [EvCout (stop_banner service_name);
       EvOpenSCManager SC_MANAGER_CONNECT (N.succ (issued w));
       EvOpenService (N.succ (issued w)) service_name
         (Z.lor SERVICE_STOP SERVICE_QUERY_STATUS) (N.succ (N.succ (issued w)));
       EvControlService (N.succ (N.succ (issued w))) SERVICE_CONTROL_STOP true;
       EvCout "Stop request sent. Waiting for service to terminate..."]
      ++ evs_wait ++
      [EvClose (N.succ (N.succ (issued w))); EvClose (N.succ (issued w));
       EvCerr "Failed to stop the service. Aborting."; EvCout "Done."] ∧
    Forall (wait_event (N.succ (N.succ (issued w)))) evs_wait ∧
    last evs_wait = Some (EvTimeout SERVICE_STOPPED) ∧
    default_timeout * ns_per_ms <= clock w' - clock w.
Proof.
  intros Hnever.
  destruct (Hnever (calls w) ltac:(lia)) as [H0 _].
  destruct (Hnever (S (calls w)) ltac:(lia)) as [H1 _].
  destruct (Hnever (S (S (calls w))) ltac:(lia)) as [H2 _].
  unfold main. step. unfold StopServiceByName. step.
  rewrite H0. step. rewrite H1. step. rewrite H2. step.
  match goal with
  | |- context [WaitForServiceStatus ?h ?T ?t ?w0] =>
      destruct (WaitForServiceStatus_polls h T t w0)
        as (b & w4 & evs & Hrun & Etr & Hp & _)
  end.
  rewrite Hrun. simpl in Etr, Hp.
  assert (Hlater : ∀ k, (S (S (S (calls w))) <= k)%nat ->
            r_ok (os w k) = true ∧ r_state (os w k) ≠ SERVICE_STOPPED)
    by (intros k Hk; apply Hnever; lia).
  destruct (polls_never_matching _ _ _ _ _ _ _ _ _ _ Hlater Hp) as (-> & Hlast & _).
  destruct (polls_pace _ _ _ _ _ _ _ _ _ _ Hp (Z.le_refl _)) as [Hpace Hto].
  assert (Hin : EvTimeout SERVICE_STOPPED ∈ evs).
  { apply last_Some in Hlast as [evs0 ->]. rewrite elem_of_app, list_elem_of_singleton. auto. }
  specialize (Hto Hin). step.
  eexists _, evs. split; [reflexivity |].
  split; [simpl; rewrite Etr, <- !app_assoc; reflexivity |].
  split; [by eapply polls_wait_events |]. split; [done |].
  simpl. lia.
Qed.

Lemma stop_that_never_completes_witness :
  never_stops running_world ∧
  ∃ w' evs_wait,
    main running_world = Some (0, w') ∧
    trace w' = trace running_world ++
      [EvCout (stop_banner service_name);
       EvOpenSCManager SC_MANAGER_CONNECT 1%N;
       EvOpenService 1%N service_name (Z.lor SERVICE_STOP SERVICE_QUERY_STATUS) 2%N;
       EvControlService 2%N SERVICE_CONTROL_STOP true;
       EvCout "Stop request sent. Waiting for service to terminate..."]
      ++ evs_wait ++
      [EvClose 2%N; EvClose 1%N;
       EvCerr "Failed to stop the service. Aborting."; EvCout "Done."] ∧
    Forall (wait_event 2%N) evs_wait ∧
    last evs_wait = Some (EvTimeout SERVICE_STOPPED) ∧
    default_timeout * ns_per_ms <= clock w' - clock running_world.
Proof.
  assert (Hnever : never_stops running_world).
  { intros k _. split; [reflexivity | discriminate]. }
  split; [exact Hnever |].
  exact (stop_that_never_completes running_world Hnever).
Defined.
